(** * cyacd2bin: a shallow embedding of [cyacd2bin.py]

    The script converts a Cypress [.cyacd] bootloader file (one hex line per
    flash row) into a flat binary image.  The embedding follows the script
    function by function:

    - Python [bytes] are [list byte]; Python integers are [Z];
    - an exception is a value of [exn], and a call that can raise returns a
      [result];
    - a Python [dict] is an association list kept in insertion order, since
      the script depends on that order ([next(iter(d.values()))], the order
      in which the arrays are written);
    - the output file is an [option bytes]: [None] while the file has not
      been opened, [Some content] afterwards.

    The schema descriptors of the script are built from the [construct]
    library.  Its combinators ([Byte], [Int16ub], [Int32ub], [Bytes], [Enum],
    [RawCopy], [Checksum], [Struct]) are modelled in [Module Construct] as
    stream parsers, following the behaviour of construct 2.10 on parsing.

    Text printed on the console is not part of the model, except for the row
    summary string, which the script computes under an [assert]. *)

From Stdlib Require Import String DecimalString ZArith List Lia Bool.
From Stdlib Require Import Permutation.
From Stdlib Require Import Init.Byte Strings.Byte.
From coqutil Require Import Byte.
Import ListNotations.
Local Open Scope Z_scope.

(** ** Exceptions and results *)

Inductive exn : Type :=
| BinasciiError      (* binascii.Error: odd length or non-hex digit *)
| StreamError        (* construct: the stream ended too early *)
| ChecksumError      (* construct: stored and computed checksum differ *)
| ValueError         (* max() of an empty sequence *)
| StopIteration      (* next() of an exhausted iterator *)
| IndexError         (* [][-1] *)
| KeyError           (* d[k] with k absent *)
| AssertionError.

Inductive result (A : Type) : Type :=
| Ok (a : A)
| Raise (e : exn).
Arguments Ok {A} a.
Arguments Raise {A} e.

Definition bind {A B : Type} (m : result A) (k : A -> result B) : result B :=
  match m with
  | Ok a => k a
  | Raise e => Raise e
  end.

Notation "x <- m ;; k" := (bind m (fun x => k))
  (at level 61, m at next level, right associativity).
Notation "' p <- m ;; k" := (bind m (fun x => let 'p := x in k))
  (at level 61, p pattern, m at next level, right associativity).

Definition is_ok {A : Type} (m : result A) : bool :=
  match m with Ok _ => true | Raise _ => false end.

(** ** Python [bytes] *)

Definition bytes : Type := list byte.

Definition b (s : string) : bytes := list_byte_of_string s.

Module PyBytes.

(** [sum(data)] over a bytes object. *)
Fixpoint sum (data : bytes) : Z :=
  match data with
  | [] => 0
  | x :: rest => byte.unsigned x + sum rest
  end.

(** The characters removed by [bytes.strip()] without argument. *)
Definition is_space (c : byte) : bool :=
  match c with
  | x09 | x0a | x0b | x0c | x0d | x20 => true
  | _ => false
  end.

Definition is_colon (c : byte) : bool :=
  match c with
  | x3a => true
  | _ => false
  end.

Fixpoint lstrip (p : byte -> bool) (s : bytes) : bytes :=
  match s with
  | [] => []
  | c :: rest => if p c then lstrip p rest else s
  end.

Definition rstrip (p : byte -> bool) (s : bytes) : bytes :=
  rev (lstrip p (rev s)).

Definition strip (s : bytes) : bytes :=
  rstrip is_space (lstrip is_space s).

(** [bytes * n] repetition of a one-byte string; empty when [n <= 0]. *)
Definition repeat_byte (c : byte) (n : Z) : bytes :=
  repeat c (Z.to_nat n).

(** The value of one hexadecimal digit, of either case. *)
Definition hex_digit (c : byte) : option Z :=
  match c with
  | x30 => Some 0 | x31 => Some 1 | x32 => Some 2 | x33 => Some 3
  | x34 => Some 4 | x35 => Some 5 | x36 => Some 6 | x37 => Some 7
  | x38 => Some 8 | x39 => Some 9
  | x41 | x61 => Some 10 | x42 | x62 => Some 11 | x43 | x63 => Some 12
  | x44 | x64 => Some 13 | x45 | x65 => Some 14 | x46 | x66 => Some 15
  | _ => None
  end.

(** [binascii.unhexlify]: two digits per byte, high digit first. *)
Fixpoint unhexlify (s : bytes) : result bytes :=
  match s with
  | [] => Ok []
  | [_] => Raise BinasciiError
  | hi :: lo :: rest =>
      match hex_digit hi, hex_digit lo with
      | Some h, Some l =>
          tl <- unhexlify rest ;;
          Ok (byte.of_Z (16 * h + l) :: tl)
      | _, _ => Raise BinasciiError
      end
  end.

Definition hex_char (d : Z) : byte :=
  if d <? 10 then byte.of_Z (48 + d) else byte.of_Z (87 + d).

(** [binascii.hexlify], used to write input lines down from their bytes. *)
Fixpoint hexlify (data : bytes) : bytes :=
  match data with
  | [] => []
  | x :: rest =>
      hex_char (byte.unsigned x / 16) :: hex_char (byte.unsigned x mod 16)
        :: hexlify rest
  end.

(** The lines of a binary file, each with its terminating newline when it
    has one: [readline()] followed by iteration over the file. *)
Fixpoint readlines_from (cur : bytes) (s : bytes) : list bytes :=
  match s with
  | [] => match cur with [] => [] | _ => [rev cur] end
  | c :: rest =>
      match c with
      | x0a => rev (c :: cur) :: readlines_from [] rest
      | _ => readlines_from (c :: cur) rest
      end
  end.

Definition readlines (s : bytes) : list bytes := readlines_from [] s.

End PyBytes.

(** ** The parts of [construct] the script uses *)

Module Construct.

(** A stream is the offset reached and the bytes still to be read. *)
Record stream : Type := mkStream { offset : Z; rest : bytes }.

Definition Parser (A : Type) : Type := stream -> result (A * stream).

(** [stream_read]: exactly [n] bytes, or [StreamError] when the length is
    negative or the stream is too short. *)
Definition stream_read (n : Z) : Parser bytes :=
  fun s =>
    if (n <? 0) || (Z.of_nat (length (rest s)) <? n) then Raise StreamError
    else Ok (firstn (Z.to_nat n) (rest s),
             mkStream (offset s + n) (skipn (Z.to_nat n) (rest s))).

(** Big-endian unsigned integer held by a byte string. *)
Definition int_ub (data : bytes) : Z :=
  fold_left (fun acc x => 256 * acc + byte.unsigned x) data 0.

Definition Byte : Parser Z :=
  fun s => '(d, s') <- stream_read 1 s ;; Ok (int_ub d, s').

Definition Int16ub : Parser Z :=
  fun s => '(d, s') <- stream_read 2 s ;; Ok (int_ub d, s').

Definition Int32ub : Parser Z :=
  fun s => '(d, s') <- stream_read 4 s ;; Ok (int_ub d, s').

Definition Bytes (n : Z) : Parser bytes := stream_read n.

(** A parsed [Enum] value: the label of a mapped integer, or the integer
    itself when the mapping has no entry for it. *)
Inductive enum_value : Type :=
| EnumLabel (label : string) (value : Z)
| EnumInteger (value : Z).

Fixpoint decmapping (mapping : list (string * Z)) (v : Z) : enum_value :=
  match mapping with
  | [] => EnumInteger v
  | (label, n) :: more =>
      if n =? v then EnumLabel label n else decmapping more v
  end.

Definition Enum (subcon : Parser Z) (mapping : list (string * Z))
  : Parser enum_value :=
  fun s => '(v, s') <- subcon s ;; Ok (decmapping mapping v, s').

(** The container returned by [RawCopy]. *)
Record raw_copy (A : Type) : Type := mkRawCopy {
  data : bytes;
  value : A;
  offset1 : Z;
  offset2 : Z;
  length_ : Z
}.
Arguments mkRawCopy {A}.
Arguments data {A}.
Arguments value {A}.
Arguments offset1 {A}.
Arguments offset2 {A}.
Arguments length_ {A}.

Definition RawCopy {A : Type} (subcon : Parser A) : Parser (raw_copy A) :=
  fun s =>
    '(v, s') <- subcon s ;;
    let len := offset s' - offset s in
    Ok (mkRawCopy (firstn (Z.to_nat len) (rest s)) v
                  (offset s) (offset s') len, s').

(** [Checksum(checksumfield, hashfunc, bytesfunc)], with [bytesfunc]
    already applied to the context. *)
Definition Checksum (checksumfield : Parser Z) (hashfunc : bytes -> Z)
           (hashed : bytes) : Parser Z :=
  fun s =>
    '(hash1, s') <- checksumfield s ;;
    let hash2 := hashfunc hashed in
    if hash1 =? hash2 then Ok (hash1, s') else Raise ChecksumError.

(** [con.parse(data)]: parse from the start; what is left is dropped. *)
Definition parse {A : Type} (con : Parser A) (input : bytes) : result A :=
  '(v, _) <- con (mkStream 0 input) ;; Ok v.

End Construct.

(** ** The schema of the script *)

Definition CHECKSUM_TYPE_FLAGS_ENUM : Construct.Parser Construct.enum_value :=
  Construct.Enum Construct.Byte
    [("2's complement summation"%string, 0); ("CRC-16-CCITT"%string, 1)].

Record cyacd_header : Type := mkHeader {
  silicon_id : Z;
  silicon_revision : Z;
  checksum_type : Construct.enum_value
}.

Definition CYACD_HEADER_STRUCT : Construct.Parser cyacd_header :=
  fun s =>
    '(sid, s1) <- Construct.Int32ub s ;;
    '(rev, s2) <- Construct.Byte s1 ;;
    '(ct, s3) <- CHECKSUM_TYPE_FLAGS_ENUM s2 ;;
    Ok (mkHeader sid rev ct, s3).

Record flash_row_fields : Type := mkFields {
  array_id : Z;
  row_id : Z;
  data_length : Z;
  row_data : bytes      (* the field named [data] in the script *)
}.

Record flash_row : Type := mkFlashRow {
  fields : Construct.raw_copy flash_row_fields;
  checksum : Z
}.

(** The [lambda] handed to [Checksum]. *)
Definition checksum_of (data : bytes) : Z :=
  (256 - Z.land (PyBytes.sum data) 255) mod 256.

Definition FLASH_ROW_FIELDS : Construct.Parser flash_row_fields :=
  fun s =>
    '(aid, s1) <- Construct.Byte s ;;
    '(rid, s2) <- Construct.Int16ub s1 ;;
    '(len, s3) <- Construct.Int16ub s2 ;;
    '(dat, s4) <- Construct.Bytes len s3 ;;
    Ok (mkFields aid rid len dat, s4).

Definition FLASH_ROW_STRUCT : Construct.Parser flash_row :=
  fun s =>
    '(f, s1) <- Construct.RawCopy FLASH_ROW_FIELDS s ;;
    '(c, s2) <- Construct.Checksum Construct.Byte checksum_of
                  (Construct.data f) s1 ;;
    Ok (mkFlashRow f c, s2).

(** [_print_header]: the header is decoded and shown; only the decoding can
    raise.  The decoded header is returned for the statements below. *)
Definition _print_header (ascii_header : bytes) : result cyacd_header :=
  raw <- PyBytes.unhexlify ascii_header ;;
  Construct.parse CYACD_HEADER_STRUCT raw.

Definition _parse_flash_row (ascii_line : bytes) : result flash_row :=
  raw <- PyBytes.unhexlify ascii_line ;;
  Construct.parse FLASH_ROW_STRUCT raw.

(** ** Python [dict], in insertion order *)

Module PyDict.

Definition dict (V : Type) : Type := list (Z * V).

Section Operations.
Context {V : Type}.

(** [d.get(k)]: [None] when the key is absent. *)
Fixpoint get (k : Z) (d : dict V) : option V :=
  match d with
  | [] => None
  | (k', v) :: more => if k' =? k then Some v else get k more
  end.

(** [k in d] *)
Definition contains (k : Z) (d : dict V) : bool :=
  match get k d with
  | Some _ => true
  | None => false
  end.

(** [d[k] = v]: a present key keeps its place, a new key goes last. *)
Fixpoint set (k : Z) (v : V) (d : dict V) : dict V :=
  match d with
  | [] => [(k, v)]
  | (k', v') :: more =>
      if k' =? k then (k', v) :: more else (k', v') :: set k v more
  end.

Definition keys (d : dict V) : list Z := map fst d.
Definition values (d : dict V) : list V := map snd d.
End Operations.

End PyDict.

Import PyDict.

(** ** Python built-ins used by the script *)

(** [max(xs)] *)
Definition py_max (xs : list Z) : result Z :=
  match xs with
  | [] => Raise ValueError
  | x :: more => Ok (fold_left Z.max more x)
  end.

(** [next(iter(xs))] *)
Definition py_next_iter {A : Type} (xs : list A) : result A :=
  match xs with
  | [] => Raise StopIteration
  | x :: _ => Ok x
  end.

(** [xs[-1]] *)
Definition py_last (xs : list Z) : result Z :=
  match xs with
  | [] => Raise IndexError
  | x :: more => Ok (last more x)
  end.

(** [range(n)] *)
Definition py_range (n : Z) : list Z :=
  map Z.of_nat (seq 0 (Z.to_nat n)).

(** [sorted(xs)] on integers *)
Fixpoint insert_sorted (x : Z) (xs : list Z) : list Z :=
  match xs with
  | [] => [x]
  | y :: more => if x <=? y then x :: xs else y :: insert_sorted x more
  end.

Definition py_sorted (xs : list Z) : list Z :=
  fold_right insert_sorted [] xs.

(** [len(xs) == len(set(xs))] *)
Fixpoint all_distinct (xs : list Z) : bool :=
  match xs with
  | [] => true
  | x :: more => negb (existsb (Z.eqb x) more) && all_distinct more
  end.

(** [f'{n}'] for an integer *)
Definition py_str (n : Z) : string :=
  NilZero.string_of_int (Z.to_int n).

(** ** The memory assembler *)

Definition FlashArray : Type := dict bytes.
Definition FlashMemory : Type := dict FlashArray.

Definition _add_row_to_array (flash_memory : FlashMemory)
           (array_id row_id : Z) (row_data : bytes) : result FlashMemory :=
  let flash_memory :=
    if negb (contains array_id flash_memory)
    then set array_id [] flash_memory
    else flash_memory in
  match get array_id flash_memory with
  | Some rows => Ok (set array_id (set row_id row_data rows) flash_memory)
  | None => Raise KeyError
  end.

(** The row stored for an (array id, row id) pair:
    [flash_memory[array_id][row_id]] when both keys are present. *)
Definition lookup_row (flash_memory : FlashMemory) (array_id row_id : Z)
  : option bytes :=
  match get array_id flash_memory with
  | Some rows => get row_id rows
  | None => None
  end.

(** The assembler run over a sequence of decoded records, as the loop of
    [parse_cyacd] runs it. *)
Fixpoint add_rows (records : list flash_row_fields)
         (flash_memory : FlashMemory) : result FlashMemory :=
  match records with
  | [] => Ok flash_memory
  | flash_row :: more =>
      flash_memory <- _add_row_to_array flash_memory (array_id flash_row)
                        (row_id flash_row) (row_data flash_row) ;;
      add_rows more flash_memory
  end.

(** The data of the last record of a sequence that names a given row. *)
Fixpoint last_write (a r : Z) (records : list flash_row_fields)
  : option bytes :=
  match records with
  | [] => None
  | flash_row :: more =>
      match last_write a r more with
      | Some later => Some later
      | None =>
          if (array_id flash_row =? a) && (row_id flash_row =? r)
          then Some (row_data flash_row)
          else None
      end
  end.

(** ** The row summary *)

Definition _interval_to_string (start end_ : Z) : result string :=
  if negb (start <=? end_) then Raise AssertionError
  else if start =? end_ then Ok (py_str start)
  else Ok (py_str start ++ "-" ++ py_str end_)%string.

(** The loop of [_get_compact_rows_string] over the sorted ids: [previous]
    is [row_ids[i - 1]] and [todo] holds [row_ids[i:]]. *)
Fixpoint compact_intervals (last_interval_start previous : Z) (todo : list Z)
  : result (list string) :=
  match todo with
  | [] =>
      s <- _interval_to_string last_interval_start previous ;;
      Ok [s]
  | current :: more =>
      if current >? previous + 1 then
        s <- _interval_to_string last_interval_start previous ;;
        others <- compact_intervals current current more ;;
        Ok (s :: others)
      else compact_intervals last_interval_start current more
  end.

Definition _get_compact_rows_string (row_ids : list Z) : result string :=
  match row_ids with
  | [] => Raise AssertionError
  | _ =>
      if negb (all_distinct row_ids) then Raise AssertionError
      else
        match py_sorted row_ids with
        | [] => Raise IndexError
        | first :: more =>
            interval_strings <- compact_intervals first first more ;;
            Ok (String.concat ", " interval_strings)
        end
  end.

(** ** The image writer *)

(** The byte that fills the rows the input does not mention. *)
Definition fill_byte (default_bit_value : string) : byte :=
  if String.eqb default_bit_value "0" then x00 else xff.

(** [output_file] is the content written so far; the result is the content
    after the call. *)
Definition _write_flash_array_to_file (flash_array : FlashArray)
           (output_file : bytes) (default_bit_value : string) : result bytes :=
  max_row_number <- py_max (keys flash_array) ;;
  let number_of_rows := max_row_number + 1 in
  first_row <- py_next_iter (values flash_array) ;;
  let row_length := Z.of_nat (length first_row) in
  _ <- _get_compact_rows_string (keys flash_array) ;;
  Ok (fold_left
        (fun file row_id =>
           match get row_id flash_array with
           | Some row => file ++ row
           | None =>
               file ++ PyBytes.repeat_byte (fill_byte default_bit_value)
                                           row_length
           end)
        (py_range number_of_rows) output_file).

Definition _print_flash_memory_summary (flash_memory : FlashMemory)
  : result unit :=
  first_flash_array <- py_next_iter (values flash_memory) ;;
  _ <- py_last (py_sorted (keys first_flash_array)) ;;
  _ <- py_next_iter (values first_flash_array) ;;
  Ok tt.

(** ** The conversion driver *)

(** The loop of [_write_flash_memory_to_files] over the array ids left to
    write.  An exception leaves the file with what was written before. *)
Fixpoint write_arrays (flash_memory : FlashMemory) (array_ids : list Z)
         (output_file : bytes) (default_bit_value : string)
  : result unit * bytes :=
  match array_ids with
  | [] => (Ok tt, output_file)
  | array_id :: more =>
      match get array_id flash_memory with
      | None => (Raise KeyError, output_file)
      | Some flash_array =>
          match _write_flash_array_to_file flash_array output_file
                                           default_bit_value with
          | Raise e => (Raise e, output_file)
          | Ok written => write_arrays flash_memory more written
                                       default_bit_value
          end
      end
  end.

(** The second component is the output file: [None] when it was never
    opened, [Some content] once [open(output_path, 'wb')] has run. *)
Definition _write_flash_memory_to_files (flash_memory : FlashMemory)
           (default_bit_value : string) : result unit * option bytes :=
  match _print_flash_memory_summary flash_memory with
  | Raise e => (Raise e, None)
  | Ok _ =>
      let '(r, output_file) :=
        write_arrays flash_memory (keys flash_memory) [] default_bit_value in
      (r, Some output_file)
  end.

(** The loop of [parse_cyacd] over the lines that follow the header. *)
Fixpoint parse_rows (lines : list bytes) (flash_memory : FlashMemory)
  : result FlashMemory :=
  match lines with
  | [] => Ok flash_memory
  | line :: more =>
      flash_row <- _parse_flash_row
                     (PyBytes.strip (PyBytes.lstrip PyBytes.is_colon line)) ;;
      let flash_row := Construct.value (fields flash_row) in
      flash_memory <- _add_row_to_array flash_memory (array_id flash_row)
                        (row_id flash_row) (row_data flash_row) ;;
      parse_rows more flash_memory
  end.

(** What the loop hands to the assembler for one line. *)
Definition decode_line (line : bytes) : result flash_row_fields :=
  flash_row <- _parse_flash_row
                 (PyBytes.strip (PyBytes.lstrip PyBytes.is_colon line)) ;;
  Ok (Construct.value (fields flash_row)).

Fixpoint decode_lines (lines : list bytes) : result (list flash_row_fields) :=
  match lines with
  | [] => Ok []
  | line :: more =>
      flash_row <- decode_line line ;;
      others <- decode_lines more ;;
      Ok (flash_row :: others)
  end.

(** [input_file] is the content of the input file.  [readline()] on an
    exhausted file gives the empty string. *)
Definition parse_cyacd (input_file : bytes) (default_bit_value : string)
  : result unit * option bytes :=
  let lines := PyBytes.readlines input_file in
  match _print_header (PyBytes.strip (hd [] lines)) with
  | Raise e => (Raise e, None)
  | Ok _ =>
      match parse_rows (tl lines) [] with
      | Raise e => (Raise e, None)
      | Ok flash_memory =>
          _write_flash_memory_to_files flash_memory default_bit_value
      end
  end.

(** ** Vocabulary of the statements *)

(** The five bytes in front of the data of a record. *)
Definition row_prefix (a r1 r0 l1 l0 : byte) : bytes := [a; r1; r0; l1; l0].

(** What the decoder returns for a record. *)
Definition decoded_row (a r1 r0 l1 l0 : byte) (payload : bytes) (c : byte)
  : flash_row :=
  let len := 256 * byte.unsigned l1 + byte.unsigned l0 in
  {| fields :=
       {| Construct.data := row_prefix a r1 r0 l1 l0 ++ payload;
          Construct.value :=
            {| array_id := byte.unsigned a;
               row_id := 256 * byte.unsigned r1 + byte.unsigned r0;
               data_length := len;
               row_data := payload |};
          Construct.offset1 := 0;
          Construct.offset2 := 5 + len;
          Construct.length_ := 5 + len |};
     checksum := byte.unsigned c |}.

(** The value shown for the checksum type of a header. *)
Definition checksum_type_of_tag (tag : Z) : Construct.enum_value :=
  if tag =? 0 then Construct.EnumLabel "2's complement summation" 0
  else if tag =? 1 then Construct.EnumLabel "CRC-16-CCITT" 1
  else Construct.EnumInteger tag.

(** The header check in the words of the specification: a header is
    refused when it is not hexadecimal, when it does not hold six bytes, or
    when its last byte is neither 0 nor 1. *)
Definition header_refused_as_specified (ascii_header : bytes) : bool :=
  match PyBytes.unhexlify ascii_header with
  | Raise _ => true
  | Ok [_; _; _; _; _; tag] =>
      negb ((byte.unsigned tag =? 0) || (byte.unsigned tag =? 1))
  | Ok _ => true
  end.

(** [ascending previous xs]: [previous :: xs] is in ascending order. *)
Fixpoint ascending (previous : Z) (xs : list Z) : Prop :=
  match xs with
  | [] => True
  | x :: more => previous <= x /\ ascending x more
  end.

(** The bytes written for one row id: the stored row, or the filler. *)
Definition row_image (flash_array : FlashArray) (default_bit_value : string)
           (row_length row_id : Z) : bytes :=
  match get row_id flash_array with
  | Some row => row
  | None => PyBytes.repeat_byte (fill_byte default_bit_value) row_length
  end.

(** [len(next(iter(flash_array.values())))], for a non-empty array. *)
Definition first_row_length (flash_array : FlashArray) : Z :=
  match values flash_array with
  | [] => 0
  | first_row :: _ => Z.of_nat (length first_row)
  end.

(** A row table the image writer accepts: it has a row, and its row ids
    are distinct, as the keys of a [dict] are. *)
Definition array_ready (rows : FlashArray) : Prop :=
  rows <> [] /\ all_distinct (keys rows) = true.

(** A memory whose arrays are all accepted by the image writer. *)
Definition memory_ready (flash_memory : FlashMemory) : Prop :=
  all_distinct (keys flash_memory) = true
  /\ Forall array_ready (values flash_memory).

(** The line terminator. *)
Definition nl : bytes := [x0a].

(** A line that holds nothing but whitespace. *)
Definition is_blank (line : bytes) : bool :=
  match PyBytes.strip line with
  | [] => true
  | _ => false
  end.

(** An input with the blank lines after its header left out: the input
    the specification takes to convert to the same result. *)
Definition without_blank_records (input_file : bytes) : bytes :=
  match PyBytes.readlines input_file with
  | [] => []
  | header :: records =>
      concat (header :: filter (fun line => negb (is_blank line)) records)
  end.

(** Bit [k] of a byte inverted. *)
Definition flip_bit (k : Z) (x : byte) : byte :=
  byte.of_Z (Z.lxor (byte.unsigned x) (2 ^ k)).

(** Bit [k] of the byte at index [i] inverted. *)
Fixpoint flip_at (i : nat) (k : Z) (data : bytes) : bytes :=
  match data, i with
  | [], _ => []
  | x :: more, O => flip_bit k x :: more
  | x :: more, S j => x :: flip_at j k more
  end.

(** The bytes of a record: the five bytes of array id, row id and data
    length, the data, and the checksum byte. *)
Definition framed_row (a r1 r0 l1 l0 : byte) (payload : bytes) (c : byte)
  : bytes :=
  row_prefix a r1 r0 l1 l0 ++ payload ++ [c].

(** A line for a record: the hexadecimal digits of its fields in the
    layout of [FLASH_ROW_STRUCT], closed by the checksum of those fields. *)
Definition hex_line_of_row (array_id row_id : Z) (payload : bytes) : bytes :=
  let len := Z.of_nat (length payload) in
  let raw_fields :=
    row_prefix (byte.of_Z array_id)
               (byte.of_Z (row_id / 256)) (byte.of_Z row_id)
               (byte.of_Z (len / 256)) (byte.of_Z len) ++ payload in
  PyBytes.hexlify (raw_fields ++ [byte.of_Z (checksum_of raw_fields)]).

(** A hexadecimal digit, of either case. *)
Definition is_hex (c : byte) : bool :=
  match PyBytes.hex_digit c with
  | Some _ => true
  | None => false
  end.

(** The byte that ends a line. *)
Definition is_newline (c : byte) : bool :=
  match c with
  | x0a => true
  | _ => false
  end.

(** The distinct elements of [ids] in the order of their first occurrence,
    after those already [seen]. *)
Fixpoint first_seen_from (seen ids : list Z) : list Z :=
  match ids with
  | [] => seen
  | id :: more =>
      first_seen_from (if existsb (Z.eqb id) seen then seen else seen ++ [id])
                      more
  end.

Definition first_seen (ids : list Z) : list Z := first_seen_from [] ids.

(** The records of a sequence that name a given array. *)
Definition rows_of_array (a : Z) (records : list flash_row_fields)
  : list flash_row_fields :=
  filter (fun flash_row => array_id flash_row =? a) records.

(** The bytes the image writer appends for a non-empty array. *)
Definition array_image (default_bit_value : string) (rows : FlashArray)
  : bytes :=
  match py_max (keys rows) with
  | Ok max_row_number =>
      concat (map (row_image rows default_bit_value (first_row_length rows))
                  (py_range (max_row_number + 1)))
  | Raise _ => []
  end.

(** The data length a byte string declares in its fourth and fifth bytes,
    0 when it is too short to hold them. *)
Definition declared_length (raw : bytes) : Z :=
  match raw with
  | _ :: _ :: _ :: l1 :: l0 :: _ => 256 * byte.unsigned l1 + byte.unsigned l0
  | _ => 0
  end.

(** The row ids [first], [first + 1], ..., [last]. *)
Definition row_run (first last : Z) : list Z :=
  map (Z.add first) (py_range (last - first + 1)).

(** * Properties *)

(** ** Arithmetic of the checksum *)

Lemma sum_nonneg (data : bytes) : 0 <= PyBytes.sum data.
Proof.
  induction data as [|x more IH]; simpl; [lia|].
  pose proof (byte.unsigned_range x). lia.
Qed.

Lemma sum_app (xs ys : bytes) :
  PyBytes.sum (xs ++ ys) = PyBytes.sum xs + PyBytes.sum ys.
Proof. induction xs as [|x more IH]; simpl; lia. Qed.

Lemma land_255 (n : Z) : Z.land n 255 = n mod 256.
Proof. change 255 with (Z.ones 8). rewrite Z.land_ones by lia. reflexivity. Qed.

Lemma checksum_of_mod (data : bytes) :
  checksum_of data = (256 - PyBytes.sum data mod 256) mod 256.
Proof. unfold checksum_of. now rewrite land_255. Qed.

Lemma checksum_of_range (data : bytes) :
  0 <= checksum_of data < 256.
Proof. rewrite checksum_of_mod. apply Z.mod_pos_bound. lia. Qed.

(** C7: for every byte string, the sum of its bytes plus its checksum is a
    multiple of 0x100; the checksum is
    (0x100 - (sum mod 0x100)) mod 0x100 and lies in 0..0xFF. *)
Theorem checksum_cancels_sum (data : bytes) :
  (PyBytes.sum data + checksum_of data) mod 256 = 0
  /\ checksum_of data = (256 - PyBytes.sum data mod 256) mod 256
  /\ 0 <= checksum_of data <= 255.
Proof.
  rewrite checksum_of_mod.
  set (s := PyBytes.sum data).
  repeat split.
  - rewrite Z.add_mod_idemp_r by lia.
    replace (s + (256 - s mod 256)) with (256 * (s / 256 + 1))
      by (pose proof (Z.div_mod s 256); lia).
    rewrite Z.mul_comm. apply Z.mod_mul. lia.
  - apply Z.mod_pos_bound. lia.
  - pose proof (Z.mod_pos_bound (256 - s mod 256) 256). lia.
Qed.

(** ** Reading from a stream *)

Lemma firstn_length_app {A : Type} (xs ys : list A) :
  firstn (length xs) (xs ++ ys) = xs.
Proof. induction xs as [|x more IH]; simpl; [now destruct ys | now rewrite IH]. Qed.

Section Streams.
Import Construct.

Lemma stream_read_app (n off : Z) (pre post : bytes) :
  Z.of_nat (length pre) = n ->
  stream_read n (mkStream off (pre ++ post))
  = Ok (pre, mkStream (off + n) post).
Proof.
  intros Hn. unfold stream_read. cbn [rest offset].
  rewrite length_app.
  replace (n <? 0) with false by (symmetry; apply Z.ltb_ge; lia).
  replace (Z.of_nat (length pre + length post) <? n) with false
    by (symmetry; apply Z.ltb_ge; lia).
  cbn [orb].
  replace (Z.to_nat n) with (length pre + 0)%nat by lia.
  rewrite firstn_app_2, skipn_app, Nat.add_0_r.
  rewrite firstn_O, skipn_all, app_nil_r.
  replace (length pre - length pre)%nat with 0%nat by lia.
  reflexivity.
Qed.

Lemma stream_read_short (n off : Z) (input : bytes) :
  Z.of_nat (length input) < n ->
  stream_read n (mkStream off input) = Raise StreamError.
Proof.
  intros Hn. unfold stream_read. cbn [rest].
  replace (Z.of_nat (length input) <? n) with true
    by (symmetry; apply Z.ltb_lt; lia).
  now rewrite orb_true_r.
Qed.

Lemma Byte_cons (off : Z) (x : byte) (more : bytes) :
  Byte (mkStream off (x :: more))
  = Ok (byte.unsigned x, mkStream (off + 1) more).
Proof.
  unfold Byte. change (x :: more) with ([x] ++ more).
  rewrite (stream_read_app 1) by reflexivity. reflexivity.
Qed.

Lemma Int16ub_cons (off : Z) (hi lo : byte) (more : bytes) :
  Int16ub (mkStream off (hi :: lo :: more))
  = Ok (256 * byte.unsigned hi + byte.unsigned lo, mkStream (off + 2) more).
Proof.
  unfold Int16ub. change (hi :: lo :: more) with ([hi; lo] ++ more).
  rewrite (stream_read_app 2) by reflexivity. reflexivity.
Qed.
End Streams.

(** ** The record decoder on a framed record *)

Lemma parse_framed_row (a r1 r0 l1 l0 c : byte) (payload extra : bytes) :
  Z.of_nat (length payload) = 256 * byte.unsigned l1 + byte.unsigned l0 ->
  Construct.parse FLASH_ROW_STRUCT
    (row_prefix a r1 r0 l1 l0 ++ payload ++ c :: extra)
  = if byte.unsigned c =? checksum_of (row_prefix a r1 r0 l1 l0 ++ payload)
    then Ok (decoded_row a r1 r0 l1 l0 payload c)
    else Raise ChecksumError.
Proof.
  intros Hlen.
  unfold Construct.parse, FLASH_ROW_STRUCT, Construct.RawCopy,
    FLASH_ROW_FIELDS, Construct.Bytes, Construct.Checksum, row_prefix.
  cbn [app].
  rewrite Byte_cons. cbn [bind].
  rewrite Int16ub_cons. cbn [bind].
  rewrite Int16ub_cons. cbn [bind].
  rewrite stream_read_app by exact Hlen. cbn [bind].
  cbn [Construct.offset Construct.rest Construct.data].
  rewrite Byte_cons. cbn [bind].
  set (len := 256 * byte.unsigned l1 + byte.unsigned l0) in *.
  replace (0 + 1 + 2 + 2 + len - 0) with (5 + len) by lia.
  replace (Z.to_nat (5 + len)) with (5 + length payload)%nat by lia.
  cbn [firstn Nat.add].
  rewrite firstn_length_app.
  destruct (byte.unsigned c =? checksum_of _); cbn [bind]; [|reflexivity].
  unfold decoded_row, row_prefix. fold len. cbn [app].
  replace (0 + 1 + 2 + 2 + len) with (5 + len) by lia.
  reflexivity.
Qed.

(** C1: a line that decodes to array id, row id, data length, data of that
    length and one checksum byte is accepted exactly when the checksum
    computed over the bytes of the four fields equals the checksum byte; the
    decoded record is then returned, and [ChecksumError] is raised
    otherwise. *)
Theorem parse_flash_row_checksum (ascii_line : bytes)
        (a r1 r0 l1 l0 c : byte) (payload : bytes) :
  PyBytes.unhexlify ascii_line
  = Ok (row_prefix a r1 r0 l1 l0 ++ payload ++ [c]) ->
  Z.of_nat (length payload) = 256 * byte.unsigned l1 + byte.unsigned l0 ->
  let computed :=
    (256 - PyBytes.sum (row_prefix a r1 r0 l1 l0 ++ payload) mod 256) mod 256
  in
  (computed = byte.unsigned c ->
   _parse_flash_row ascii_line = Ok (decoded_row a r1 r0 l1 l0 payload c))
  /\ (computed <> byte.unsigned c ->
      _parse_flash_row ascii_line = Raise ChecksumError)
  /\ (is_ok (_parse_flash_row ascii_line) = true <->
      computed = byte.unsigned c).
Proof.
  intros Hhex Hlen computed.
  unfold _parse_flash_row. rewrite Hhex. cbn [bind].
  rewrite parse_framed_row by exact Hlen.
  rewrite checksum_of_mod. fold computed.
  destruct (Z.eqb_spec (byte.unsigned c) computed) as [E|E].
  - repeat split; intros; try reflexivity; congruence.
  - repeat split; intros; try reflexivity; try congruence.
    discriminate.
Qed.

Lemma parse_flash_row_checksum_witness :
  let line := b "0000000002AABB99" in
  PyBytes.unhexlify line
  = Ok (row_prefix x00 x00 x00 x00 x02 ++ [xaa; xbb] ++ [x99])
  /\ _parse_flash_row line
     = Ok (decoded_row x00 x00 x00 x00 x02 [xaa; xbb] x99)
  /\ _parse_flash_row (b "0000000002AABB9A") = Raise ChecksumError.
Proof.
  split; [reflexivity|]. split.
  - destruct (parse_flash_row_checksum (b "0000000002AABB99")
                x00 x00 x00 x00 x02 x99 [xaa; xbb] eq_refl eq_refl)
      as [Haccept _].
    apply Haccept. reflexivity.
  - destruct (parse_flash_row_checksum (b "0000000002AABB9A")
                x00 x00 x00 x00 x02 x9a [xaa; xbb] eq_refl eq_refl)
      as [_ [Hreject _]].
    apply Hreject. vm_compute. discriminate.
Defined.

(** C10: when the decoded bytes are a well-formed record with a correct
    checksum followed by further bytes, the decoder returns what it returns
    for the record alone; the bytes after the checksum are not looked at. *)
Theorem parse_flash_row_ignores_trailing (ascii_line longer_line : bytes)
        (a r1 r0 l1 l0 c : byte) (payload extra : bytes) :
  PyBytes.unhexlify ascii_line
  = Ok (row_prefix a r1 r0 l1 l0 ++ payload ++ [c]) ->
  PyBytes.unhexlify longer_line
  = Ok ((row_prefix a r1 r0 l1 l0 ++ payload ++ [c]) ++ extra) ->
  Z.of_nat (length payload) = 256 * byte.unsigned l1 + byte.unsigned l0 ->
  checksum_of (row_prefix a r1 r0 l1 l0 ++ payload) = byte.unsigned c ->
  _parse_flash_row longer_line = Ok (decoded_row a r1 r0 l1 l0 payload c)
  /\ _parse_flash_row longer_line = _parse_flash_row ascii_line.
Proof.
  intros Hshort Hlong Hlen Hsum.
  unfold _parse_flash_row. rewrite Hshort, Hlong. cbn [bind].
  rewrite <- !app_assoc. cbn [app].
  rewrite !parse_framed_row by exact Hlen.
  rewrite Hsum, Z.eqb_refl. split; reflexivity.
Qed.

Lemma parse_flash_row_ignores_trailing_witness :
  _parse_flash_row (b "0000000002AABB99DEADBEEF")
  = Ok (decoded_row x00 x00 x00 x00 x02 [xaa; xbb] x99)
  /\ _parse_flash_row (b "0000000002AABB99DEADBEEF")
     = _parse_flash_row (b "0000000002AABB99").
Proof.
  apply (parse_flash_row_ignores_trailing
           (b "0000000002AABB99") (b "0000000002AABB99DEADBEEF")
           x00 x00 x00 x00 x02 x99 [xaa; xbb] [xde; xad; xbe; xef]);
    reflexivity.
Defined.

(** ** The header decoder *)

Lemma unhexlify_raises_only_binascii (s : bytes) (e : exn) :
  PyBytes.unhexlify s = Raise e -> e = BinasciiError.
Proof.
  remember (length s) as n eqn:Hn.
  revert s Hn e.
  induction n as [n IH] using lt_wf_ind.
  intros [|hi [|lo more]] Hn e; simpl.
  - discriminate.
  - congruence.
  - destruct (PyBytes.hex_digit hi); [|congruence].
    destruct (PyBytes.hex_digit lo); [|congruence].
    destruct (PyBytes.unhexlify more) as [tl|e'] eqn:Hmore; simpl.
    + discriminate.
    + intros [= <-].
      apply (IH (length more)) with (s := more); [subst n; simpl; lia | reflexivity | exact Hmore].
  Qed.

Lemma Int32ub_cons (off : Z) (b3 b2 b1 b0 : byte) (more : bytes) :
  Construct.Int32ub (Construct.mkStream off (b3 :: b2 :: b1 :: b0 :: more))
  = Ok (256 * (256 * (256 * byte.unsigned b3 + byte.unsigned b2)
               + byte.unsigned b1) + byte.unsigned b0,
        Construct.mkStream (off + 4) more).
Proof.
  unfold Construct.Int32ub.
  change (b3 :: b2 :: b1 :: b0 :: more) with ([b3; b2; b1; b0] ++ more).
  rewrite (stream_read_app 4) by reflexivity. reflexivity.
Qed.

(** C4, as stated, fails: a header of seven bytes is not six bytes long,
    and the decoder accepts it. *)
Lemma header_of_seven_bytes_accepted :
  ~ (is_ok (_print_header (b "1E9602AA000007")) = false
     <-> header_refused_as_specified (b "1E9602AA000007") = true).
Proof.
  intros [_ Hrefused].
  assert (Hok : is_ok (_print_header (b "1E9602AA000007")) = true)
    by reflexivity.
  rewrite Hrefused in Hok by reflexivity. discriminate.
Qed.

(** C4, amended: the header decoder raises exactly when the line is not
    hexadecimal ([binascii.Error]) or decodes to fewer than six bytes
    ([StreamError]).  Otherwise it returns the silicon id, the revision and
    the checksum type read from the first six bytes: the label for tag 0 or
    1, the bare integer for any other tag.  Bytes after the sixth are not
    looked at. *)
Theorem print_header_decodes (ascii_header : bytes) :
  _print_header ascii_header
  = match PyBytes.unhexlify ascii_header with
    | Raise _ => Raise BinasciiError
    | Ok (s3 :: s2 :: s1 :: s0 :: revision :: tag :: _) =>
        Ok {| silicon_id :=
                256 * (256 * (256 * byte.unsigned s3 + byte.unsigned s2)
                       + byte.unsigned s1) + byte.unsigned s0;
              silicon_revision := byte.unsigned revision;
              checksum_type := checksum_type_of_tag (byte.unsigned tag) |}
    | Ok _ => Raise StreamError
    end
  /\ (is_ok (_print_header ascii_header) = false
      <-> is_ok (PyBytes.unhexlify ascii_header) = false
          \/ exists raw, PyBytes.unhexlify ascii_header = Ok raw
                         /\ (length raw < 6)%nat).
Proof.
  unfold _print_header.
  destruct (PyBytes.unhexlify ascii_header) as [raw|e] eqn:Hhex; cbn [bind].
  - destruct raw as [|s3 [|s2 [|s1 [|s0 [|revision [|tag extra]]]]]];
      try (split; [reflexivity|];
           split; [intros _; right; eexists; split; [reflexivity | simpl; lia]
                  | reflexivity]).
    assert (Hdec : Construct.parse CYACD_HEADER_STRUCT
                     (s3 :: s2 :: s1 :: s0 :: revision :: tag :: extra)
                   = Ok {| silicon_id :=
                             256 * (256 * (256 * byte.unsigned s3
                                           + byte.unsigned s2)
                                    + byte.unsigned s1) + byte.unsigned s0;
                           silicon_revision := byte.unsigned revision;
                           checksum_type :=
                             checksum_type_of_tag (byte.unsigned tag) |}).
    { unfold Construct.parse, CYACD_HEADER_STRUCT, CHECKSUM_TYPE_FLAGS_ENUM,
        Construct.Enum.
      rewrite Int32ub_cons. cbn [bind].
      rewrite Byte_cons. cbn [bind].
      rewrite Byte_cons. cbn [bind].
      unfold checksum_type_of_tag, Construct.decmapping.
      rewrite (Z.eqb_sym 0), (Z.eqb_sym 1). reflexivity. }
    rewrite Hdec. split; [reflexivity|].
    split; [discriminate|].
    intros [Hbad | (raw & [= <-] & Hshort)]; [discriminate | simpl in Hshort; lia].
  - apply unhexlify_raises_only_binascii in Hhex. subst e.
    split; [reflexivity|]. split; [now left | reflexivity].
Qed.

(** ** The memory assembler *)

Section DictFacts.
Context {V : Type}.
Implicit Types (d : dict V) (k : Z) (v : V).

Lemma get_set_same d k v : get k (set k v d) = Some v.
Proof.
  induction d as [|[k' v'] more IH]; simpl.
  - now rewrite Z.eqb_refl.
  - destruct (k' =? k) eqn:E; simpl; rewrite E; [reflexivity | exact IH].
Qed.

Lemma get_set_other d k k' v : k' <> k -> get k' (set k v d) = get k' d.
Proof.
  intros Hne. induction d as [|[k0 v0] more IH]; simpl.
  - destruct (Z.eqb_spec k k'); [congruence | reflexivity].
  - destruct (Z.eqb_spec k0 k) as [->|Hk0]; simpl.
    + destruct (Z.eqb_spec k k'); [congruence | reflexivity].
    + destruct (k0 =? k'); [reflexivity | exact IH].
Qed.

Lemma get_set d k k' v :
  get k' (set k v d) = if k' =? k then Some v else get k' d.
Proof.
  destruct (Z.eqb_spec k' k) as [->|Hne].
  - apply get_set_same.
  - now apply get_set_other.
Qed.

Lemma set_not_nil d k v : set k v d <> [].
Proof. destruct d as [|[k' v'] more]; simpl; [|destruct (k' =? k)]; discriminate. Qed.

Lemma keys_set_present d k v :
  contains k d = true -> keys (set k v d) = keys d.
Proof.
  unfold contains, keys. induction d as [|[k' v'] more IH]; simpl.
  - discriminate.
  - destruct (k' =? k); simpl; [reflexivity|].
    intros H. now rewrite IH.
Qed.

Lemma keys_set_absent d k v :
  contains k d = false -> keys (set k v d) = keys d ++ [k].
Proof.
  unfold contains, keys. induction d as [|[k' v'] more IH]; simpl.
  - reflexivity.
  - destruct (k' =? k); simpl; [discriminate|].
    intros H. now rewrite IH.
Qed.
End DictFacts.

Lemma set_set {V : Type} (d : dict V) (k : Z) (v1 v2 : V) :
  set k v2 (set k v1 d) = set k v2 d.
Proof.
  induction d as [|[k' v'] more IH]; simpl.
  - now rewrite Z.eqb_refl.
  - destruct (k' =? k) eqn:E; simpl; rewrite E; [reflexivity | now rewrite IH].
Qed.

(** What [_add_row_to_array] returns: the row is set in the row table the
    array had, or in a fresh one. *)
Lemma add_row_ok (flash_memory : FlashMemory) (a r : Z) (d : bytes) :
  _add_row_to_array flash_memory a r d
  = Ok (set a (set r d (match get a flash_memory with
                        | Some rows => rows
                        | None => []
                        end))
            flash_memory).
Proof.
  unfold _add_row_to_array, contains, FlashMemory, FlashArray, dict in *.
  destruct (get a flash_memory) as [old|] eqn:Hget; cbv iota beta delta [negb].
  - now rewrite ?Hget.
  - now rewrite get_set_same, set_set.
Qed.

Lemma add_row_lookup (flash_memory : FlashMemory) (a r : Z) (d : bytes) :
  exists updated,
    _add_row_to_array flash_memory a r d = Ok updated
    /\ forall a' r',
        lookup_row updated a' r'
        = if (a' =? a) && (r' =? r) then Some d
          else lookup_row flash_memory a' r'.
Proof.
  eexists. split; [apply add_row_ok|].
  intros a' r'. unfold lookup_row.
  rewrite get_set.
  destruct (Z.eqb_spec a' a) as [->|Hne]; cbn [andb]; [|reflexivity].
  rewrite get_set. destruct (r' =? r); [reflexivity|].
  destruct (get a flash_memory); reflexivity.
Qed.

Lemma add_rows_lookup (records : list flash_row_fields) :
  forall flash_memory,
  exists assembled,
    add_rows records flash_memory = Ok assembled
    /\ forall a r,
        lookup_row assembled a r
        = match last_write a r records with
          | Some later => Some later
          | None => lookup_row flash_memory a r
          end.
Proof.
  induction records as [|x more IH]; intros flash_memory; simpl.
  - eexists. split; [reflexivity | reflexivity].
  - destruct (add_row_lookup flash_memory (array_id x) (row_id x) (row_data x))
      as (updated & Hadd & Hlook).
    rewrite Hadd. cbn [bind].
    destruct (IH updated) as (assembled & Hrows & Hall).
    exists assembled. split; [exact Hrows|].
    intros a r. rewrite Hall, Hlook.
    destruct (last_write a r more); [reflexivity|].
    rewrite (Z.eqb_sym a), (Z.eqb_sym r).
    destruct ((array_id x =? a) && (row_id x =? r)); reflexivity.
Qed.

(** C6: inserting a record never raises; afterwards its (array id, row id)
    pair holds the data of that record, whatever was there before, and
    every other pair holds what it held.  Over a whole sequence of records,
    each pair therefore ends with the data of the last record naming it. *)
Theorem add_row_last_write_wins (flash_memory : FlashMemory)
        (array_id row_id : Z) (row_data : bytes)
        (records : list flash_row_fields) :
  (exists updated,
      _add_row_to_array flash_memory array_id row_id row_data = Ok updated
      /\ forall a r,
          lookup_row updated a r
          = if (a =? array_id) && (r =? row_id) then Some row_data
            else lookup_row flash_memory a r)
  /\ (exists assembled,
         add_rows records [] = Ok assembled
         /\ forall a r, lookup_row assembled a r = last_write a r records).
Proof.
  split.
  - apply add_row_lookup.
  - destruct (add_rows_lookup records []) as (assembled & Hrows & Hall).
    exists assembled. split; [exact Hrows|].
    intros a r. rewrite Hall. now destruct (last_write a r records).
Qed.

(** ** The row summary never trips its assertions *)

Lemma insert_sorted_ascending (x previous : Z) (xs : list Z) :
  previous <= x -> ascending previous xs ->
  ascending previous (insert_sorted x xs).
Proof.
  revert previous. induction xs as [|y more IH]; intros previous Hpx Hasc.
  - simpl. auto.
  - destruct Hasc as [Hpy Hmore]. simpl.
    destruct (Z.leb_spec x y); simpl.
    + repeat split; auto; lia.
    + split; [exact Hpy|]. apply IH; [lia | exact Hmore].
Qed.

Lemma py_sorted_ascending (xs : list Z) :
  match py_sorted xs with
  | [] => xs = []
  | first :: more => ascending first more
  end.
Proof.
  induction xs as [|x more IH]; [reflexivity|].
  simpl. destruct (py_sorted more) as [|y others]; simpl; [exact I|].
  destruct (Z.leb_spec x y); simpl.
  - split; [lia | exact IH].
  - apply insert_sorted_ascending; [lia | exact IH].
Qed.

Lemma compact_intervals_ok (todo : list Z) :
  forall last_interval_start previous,
    last_interval_start <= previous -> ascending previous todo ->
    exists strings,
      compact_intervals last_interval_start previous todo = Ok strings.
Proof.
  induction todo as [|current more IH]; intros start previous Hle Hasc; simpl.
  - unfold _interval_to_string.
    replace (start <=? previous) with true by (symmetry; apply Z.leb_le; lia).
    cbn [negb]. destruct (start =? previous); eexists; reflexivity.
  - destruct Hasc as [Hpc Hmore].
    destruct (current >? previous + 1).
    + unfold _interval_to_string.
      replace (start <=? previous) with true by (symmetry; apply Z.leb_le; lia).
      cbn [negb].
      destruct (IH current current (Z.le_refl _) Hmore) as [others Hothers].
      rewrite Hothers.
      destruct (start =? previous); eexists; reflexivity.
    + apply IH; [lia | exact Hmore].
Qed.

Lemma get_compact_rows_string_ok (row_ids : list Z) :
  row_ids <> [] -> all_distinct row_ids = true ->
  exists summary, _get_compact_rows_string row_ids = Ok summary.
Proof.
  intros Hne Hdistinct. unfold _get_compact_rows_string.
  destruct row_ids as [|x more]; [congruence|].
  rewrite Hdistinct. cbn [negb].
  pose proof (py_sorted_ascending (x :: more)) as Hsorted.
  destruct (py_sorted (x :: more)) as [|first others]; [discriminate|].
  destruct (compact_intervals_ok others first first (Z.le_refl _) Hsorted)
    as [strings Hstrings].
  rewrite Hstrings. eexists. reflexivity.
Qed.

(** ** The image writer *)

Lemma fold_left_write (flash_array : FlashArray) (default_bit_value : string)
      (row_length : Z) (row_ids : list Z) (output_file : bytes) :
  fold_left
    (fun file row_id =>
       match get row_id flash_array with
       | Some row => file ++ row
       | None =>
           file ++ PyBytes.repeat_byte (fill_byte default_bit_value) row_length
       end)
    row_ids output_file
  = output_file
      ++ concat (map (row_image flash_array default_bit_value row_length)
                     row_ids).
Proof.
  revert output_file.
  induction row_ids as [|row_id more IH]; intros output_file; simpl.
  - now rewrite app_nil_r.
  - rewrite IH. unfold row_image at 2.
    destruct (get row_id flash_array); now rewrite app_assoc.
Qed.

Lemma py_max_spec (xs : list Z) :
  xs <> [] ->
  exists m, py_max xs = Ok m /\ In m xs /\ Forall (fun x => x <= m) xs.
Proof.
  destruct xs as [|x more]; [congruence|]. intros _.
  exists (fold_left Z.max more x). split; [reflexivity|].
  assert (Hgen : forall acc,
             (fold_left Z.max more acc = acc \/ In (fold_left Z.max more acc) more)
             /\ acc <= fold_left Z.max more acc
             /\ Forall (fun y => y <= fold_left Z.max more acc) more).
  { induction more as [|y rest IH]; intros acc; simpl.
    - repeat split; auto; lia.
    - destruct (IH (Z.max acc y)) as (Hin & Hacc & Hall).
      repeat split.
      + destruct Hin as [Heq | Hin]; [|auto].
        rewrite Heq. destruct (Z.max_spec acc y) as [[_ ->] | [_ ->]]; auto.
      + lia.
      + constructor; [lia | exact Hall]. }
  destruct (Hgen x) as (Hin & Hacc & Hall).
  split.
  - destruct Hin as [-> | Hin]; [now left | now right].
  - constructor; assumption.
Qed.

Lemma get_in_values {V : Type} (d : dict V) (k : Z) (v : V) :
  get k d = Some v -> In v (values d).
Proof.
  induction d as [|[k' v'] more IH]; simpl; [discriminate|].
  destruct (k' =? k); [intros [= ->]; now left | auto].
Qed.

Lemma length_concat_blocks (width : nat) (blocks : list bytes) :
  Forall (fun block => length block = width) blocks ->
  length (concat blocks) = (length blocks * width)%nat.
Proof.
  induction 1 as [|block more Hblock _ IH]; simpl; [reflexivity|].
  rewrite length_app, IH, Hblock. reflexivity.
Qed.

Lemma slice_concat_blocks (width : nat) (blocks : list bytes) :
  Forall (fun block => length block = width) blocks ->
  forall i, (i < length blocks)%nat ->
    firstn width (skipn (i * width) (concat blocks)) = nth i blocks [].
Proof.
  induction 1 as [|block more Hblock _ IH]; intros i Hi; simpl in *; [lia|].
  destruct i as [|i]; simpl.
  - rewrite <- Hblock. apply firstn_length_app.
  - rewrite skipn_app.
    rewrite skipn_all2 by lia.
    replace (width + i * width - length block)%nat with (i * width)%nat by lia.
    apply IH. lia.
Qed.

Lemma py_range_length (n : Z) : length (py_range n) = Z.to_nat n.
Proof. unfold py_range. now rewrite length_map, length_seq. Qed.

Lemma py_range_nth (n : Z) (i : nat) :
  (i < Z.to_nat n)%nat -> nth i (py_range n) 0 = Z.of_nat i.
Proof.
  intros Hi. unfold py_range.
  change 0 with (Z.of_nat 0). rewrite map_nth, seq_nth by exact Hi.
  reflexivity.
Qed.

Lemma row_image_length (flash_array : FlashArray) (default_bit_value : string)
      (width row_id : Z) :
  Forall (fun row => Z.of_nat (length row) = width) (values flash_array) ->
  0 <= width ->
  length (row_image flash_array default_bit_value width row_id)
  = Z.to_nat width.
Proof.
  intros Hrows Hwidth. unfold row_image.
  destruct (get row_id flash_array) as [row|] eqn:Hget.
  - apply get_in_values in Hget.
    rewrite Forall_forall in Hrows. specialize (Hrows row Hget). lia.
  - unfold PyBytes.repeat_byte. apply repeat_length.
Qed.

Lemma write_flash_array_general (flash_array : FlashArray)
      (output_file : bytes) (default_bit_value : string) :
  flash_array <> [] ->
  all_distinct (keys flash_array) = true ->
  exists max_row,
    In max_row (keys flash_array)
    /\ Forall (fun k => k <= max_row) (keys flash_array)
    /\ py_max (keys flash_array) = Ok max_row
    /\ _write_flash_array_to_file flash_array output_file default_bit_value
       = Ok (output_file
               ++ concat (map (row_image flash_array default_bit_value
                                         (first_row_length flash_array))
                              (py_range (max_row + 1)))).
Proof.
  intros Hne Hdistinct.
  assert (Hkeys : keys flash_array <> [])
    by (destruct flash_array; [congruence | discriminate]).
  destruct (py_max_spec (keys flash_array) Hkeys) as (m & Hmax & Hin & Hall).
  destruct (get_compact_rows_string_ok (keys flash_array) Hkeys Hdistinct)
    as [summary Hsummary].
  exists m. repeat split; try assumption.
  unfold _write_flash_array_to_file, first_row_length.
  rewrite Hmax. cbn [bind].
  destruct flash_array as [|[k first_row] more]; [congruence|].
  cbn [values map snd py_next_iter bind].
  change (map fst ((k, first_row) :: more)) with (keys ((k, first_row) :: more)).
  rewrite Hsummary. cbn [bind].
  f_equal. apply fold_left_write.
Qed.

(** C2: for a non-empty flash array whose rows all have the same length
    [width], the image writer appends, for the row ids 0 to the largest
    present id in ascending order, the stored bytes of a present row or
    [width] filler bytes for an absent one (0x00 for the default bit '0',
    0xFF for '1'); that is (max_row + 1) * width bytes.  In particular
    {0: AA AA, 3: BB BB} with the filler 0x00 gives AA AA 00 00 00 00 BB BB. *)
Theorem write_flash_array_image :
  (forall (flash_array : FlashArray) (output_file : bytes)
          (default_bit_value : string) (width : Z),
      flash_array <> [] ->
      all_distinct (keys flash_array) = true ->
      Forall (fun k => 0 <= k) (keys flash_array) ->
      Forall (fun row => Z.of_nat (length row) = width) (values flash_array) ->
      exists max_row image,
        In max_row (keys flash_array)
        /\ Forall (fun k => k <= max_row) (keys flash_array)
        /\ _write_flash_array_to_file flash_array output_file default_bit_value
           = Ok (output_file ++ image)
        /\ image
           = concat (map (row_image flash_array default_bit_value width)
                         (py_range (max_row + 1)))
        /\ Z.of_nat (length image) = (max_row + 1) * width
        /\ forall row_id, 0 <= row_id <= max_row ->
             firstn (Z.to_nat width) (skipn (Z.to_nat (row_id * width)) image)
             = match get row_id flash_array with
               | Some row => row
               | None => repeat (fill_byte default_bit_value) (Z.to_nat width)
               end)
  /\ fill_byte "0" = x00
  /\ fill_byte "1" = xff
  /\ _write_flash_array_to_file [(0, [xaa; xaa]); (3, [xbb; xbb])] [] "0"
     = Ok [xaa; xaa; x00; x00; x00; x00; xbb; xbb].
Proof.
  split; [|repeat split; reflexivity].
  intros flash_array output_file default_bit_value width
         Hne Hdistinct Hids Hrows.
  destruct (write_flash_array_general flash_array output_file
              default_bit_value Hne Hdistinct)
    as (m & Hin & Hall & _ & Hwrite).
  assert (Hfirst : first_row_length flash_array = width).
  { unfold first_row_length.
    destruct flash_array as [|[k row] more]; [congruence|].
    inversion Hrows; assumption. }
  rewrite Hfirst in Hwrite.
  assert (Hm : 0 <= m) by (rewrite Forall_forall in Hids; auto).
  assert (Hwidth : 0 <= width).
  { destruct flash_array as [|[k row] more]; [congruence|].
    inversion Hrows; subst; lia. }
  set (blocks := map (row_image flash_array default_bit_value width)
                     (py_range (m + 1))) in *.
  assert (Hblocks : Forall (fun block => length block = Z.to_nat width) blocks).
  { apply Forall_map, Forall_forall. intros r _.
    now apply row_image_length. }
  assert (Hcount : length blocks = Z.to_nat (m + 1))
    by (unfold blocks; now rewrite length_map, py_range_length).
  exists m, (concat blocks). repeat split; try assumption.
  - rewrite (length_concat_blocks _ _ Hblocks), Hcount. nia.
  - intros row_id Hrow.
    replace (Z.to_nat (row_id * width))
      with (Z.to_nat row_id * Z.to_nat width)%nat by nia.
    rewrite (slice_concat_blocks _ _ Hblocks) by lia.
    unfold blocks.
    rewrite (nth_indep _ [] (row_image flash_array default_bit_value width 0))
      by (rewrite length_map, py_range_length; lia).
    rewrite map_nth, py_range_nth by lia.
    rewrite Z2Nat.id by lia. reflexivity.
Qed.

Lemma write_flash_array_image_witness :
  exists max_row image,
    In max_row [0; 3]
    /\ _write_flash_array_to_file [(0, [xaa; xaa]); (3, [xbb; xbb])] [x11] "1"
       = Ok ([x11] ++ image)
    /\ Z.of_nat (length image) = (max_row + 1) * 2.
Proof.
  destruct (proj1 write_flash_array_image
              [(0, [xaa; xaa]); (3, [xbb; xbb])] [x11] "1"%string 2)
    as (max_row & image & Hin & _ & Hwrite & _ & Hlen & _).
  - discriminate.
  - reflexivity.
  - simpl. apply Forall_cons; [lia | apply Forall_cons; [lia | apply Forall_nil]].
  - apply Forall_cons;
      [reflexivity | apply Forall_cons; [reflexivity | apply Forall_nil]].
  - exists max_row, image. auto.
Defined.

(** ** The assembled memory only holds arrays the writer accepts *)

Lemma contains_existsb {V : Type} (d : dict V) (k : Z) :
  contains k d = existsb (Z.eqb k) (keys d).
Proof.
  unfold contains, keys. induction d as [|[k' v'] more IH]; simpl.
  - reflexivity.
  - rewrite (Z.eqb_sym k k'). destruct (k' =? k); [reflexivity | exact IH].
Qed.

Lemma all_distinct_snoc (xs : list Z) (k : Z) :
  all_distinct xs = true -> existsb (Z.eqb k) xs = false ->
  all_distinct (xs ++ [k]) = true.
Proof.
  induction xs as [|x more IH]; simpl; [reflexivity|].
  intros Hd Hk.
  apply andb_true_iff in Hd as [Hx Hmore].
  apply orb_false_iff in Hk as [Hkx Hkmore].
  rewrite existsb_app, IH by assumption.
  simpl. rewrite (Z.eqb_sym x k), Hkx, orb_false_r, Hx. reflexivity.
Qed.

Lemma set_keys_distinct {V : Type} (d : dict V) (k : Z) (v : V) :
  all_distinct (keys d) = true -> all_distinct (keys (set k v d)) = true.
Proof.
  intros Hd. destruct (contains k d) eqn:Hk.
  - now rewrite keys_set_present.
  - rewrite keys_set_absent by exact Hk.
    apply all_distinct_snoc; [exact Hd | now rewrite <- contains_existsb].
Qed.

Lemma set_values_Forall {V : Type} (P : V -> Prop) (d : dict V) (k : Z) (v : V) :
  Forall P (values d) -> P v -> Forall P (values (set k v d)).
Proof.
  unfold values. intros Hd Hv.
  induction d as [|[k' v'] more IH]; simpl.
  - constructor; [exact Hv | constructor].
  - inversion Hd; subst.
    destruct (k' =? k); simpl; constructor; auto.
Qed.

Lemma add_row_ready (flash_memory : FlashMemory) (a r : Z) (d : bytes) :
  memory_ready flash_memory ->
  exists updated,
    _add_row_to_array flash_memory a r d = Ok updated
    /\ memory_ready updated.
Proof.
  intros [Hkeys Harrays]. eexists. split; [apply add_row_ok|].
  split; [now apply set_keys_distinct|].
  apply set_values_Forall; [exact Harrays|].
  split; [apply set_not_nil|].
  apply set_keys_distinct.
  destruct (get a flash_memory) as [rows|] eqn:Hget; [|reflexivity].
  apply get_in_values in Hget.
  rewrite Forall_forall in Harrays. now apply Harrays.
Qed.

Lemma add_rows_ready (records : list flash_row_fields) :
  forall flash_memory,
    memory_ready flash_memory ->
    exists assembled,
      add_rows records flash_memory = Ok assembled /\ memory_ready assembled.
Proof.
  induction records as [|x more IH]; intros flash_memory Hready; simpl.
  - eexists. split; [reflexivity | exact Hready].
  - destruct (add_row_ready flash_memory (array_id x) (row_id x) (row_data x)
                Hready) as (updated & Hadd & Hupdated).
    rewrite Hadd. cbn [bind]. now apply IH.
Qed.

Lemma memory_ready_empty : memory_ready [].
Proof. split; [reflexivity | constructor]. Qed.

Lemma array_ready_writes (rows : FlashArray) :
  array_ready rows ->
  (exists max_row, py_max (keys rows) = Ok max_row)
  /\ (exists first_row, py_next_iter (values rows) = Ok first_row)
  /\ forall output_file default_bit_value,
      exists written,
        _write_flash_array_to_file rows output_file default_bit_value
        = Ok written.
Proof.
  intros [Hne Hdistinct]. repeat split.
  - destruct (write_flash_array_general rows [] "0" Hne Hdistinct)
      as (m & _ & _ & Hmax & _).
    now exists m.
  - destruct rows as [|[k row] more]; [congruence|].
    now exists row.
  - intros output_file default_bit_value.
    destruct (write_flash_array_general rows output_file default_bit_value
                Hne Hdistinct) as (m & _ & _ & _ & Hwrite).
    eexists. exact Hwrite.
Qed.

(** C9: whatever records are inserted, starting from the empty memory,
    every array of the assembled memory has at least one row; so for each
    of them the largest row id and the length of the first row are defined,
    and the image writer returns. *)
Theorem assembled_arrays_have_rows (records : list flash_row_fields) :
  exists assembled,
    add_rows records [] = Ok assembled
    /\ Forall
         (fun rows =>
            rows <> []
            /\ (exists max_row, py_max (keys rows) = Ok max_row)
            /\ (exists first_row, py_next_iter (values rows) = Ok first_row)
            /\ forall output_file default_bit_value,
                exists written,
                  _write_flash_array_to_file rows output_file
                                             default_bit_value
                  = Ok written)
         (values assembled).
Proof.
  destruct (add_rows_ready records [] memory_ready_empty)
    as (assembled & Hrows & _ & Harrays).
  exists assembled. split; [exact Hrows|].
  eapply Forall_impl; [|exact Harrays].
  intros rows Hready. split; [apply Hready | now apply array_ready_writes].
Qed.

(** ** The conversion driver *)

Lemma parse_rows_failing_line (lines : list bytes) (line : bytes) (e : exn) :
  In line lines -> decode_line line = Raise e ->
  forall flash_memory, exists e', parse_rows lines flash_memory = Raise e'.
Proof.
  intros Hin Hline.
  induction lines as [|first more IH]; intros flash_memory; [destruct Hin|].
  simpl.
  destruct (_parse_flash_row
              (PyBytes.strip (PyBytes.lstrip PyBytes.is_colon first)))
    as [flash_row|e1] eqn:Hfirst; cbn [bind].
  - rewrite add_row_ok. cbn [bind].
    destruct Hin as [-> | Hin]; [|now apply IH].
    unfold decode_line in Hline. rewrite Hfirst in Hline. discriminate.
  - now exists e1.
Qed.

Lemma failing_line_aborts (input_file : bytes) (default_bit_value : string)
      (line : bytes) (e : exn) :
  In line (tl (PyBytes.readlines input_file)) ->
  decode_line line = Raise e ->
  exists e', parse_cyacd input_file default_bit_value = (Raise e', None).
Proof.
  intros Hin Hline. unfold parse_cyacd.
  destruct (_print_header _) as [header|e0]; [|now exists e0].
  destruct (parse_rows_failing_line _ _ _ Hin Hline []) as [e' He'].
  rewrite He'. now exists e'.
Qed.

Lemma parse_rows_decode_lines (lines : list bytes) :
  forall flash_memory,
    parse_rows lines flash_memory
    = records <- decode_lines lines ;; add_rows records flash_memory.
Proof.
  induction lines as [|line more IH]; intros flash_memory; [reflexivity|].
  simpl. unfold decode_line.
  destruct (_parse_flash_row _) as [flash_row|e]; cbn [bind]; [|reflexivity].
  rewrite add_row_ok. cbn [bind]. rewrite IH.
  destruct (decode_lines more) as [others|e]; cbn [bind add_rows];
    [|reflexivity].
  now rewrite add_row_ok.
Qed.

(** C3: when a line after the header fails to decode, the conversion ends
    with an exception and the output file has not been opened: every line
    is parsed before [_write_flash_memory_to_files] runs. *)
Theorem failing_record_no_output (input_file : bytes)
        (default_bit_value : string) (line : bytes) (e : exn) :
  In line (tl (PyBytes.readlines input_file)) ->
  _parse_flash_row (PyBytes.strip (PyBytes.lstrip PyBytes.is_colon line))
  = Raise e ->
  exists e', parse_cyacd input_file default_bit_value = (Raise e', None).
Proof.
  intros Hin Hline.
  apply (failing_line_aborts _ _ line e Hin).
  unfold decode_line. now rewrite Hline.
Qed.

Lemma failing_record_no_output_witness :
  exists e',
    parse_cyacd (b "1E9602AA0000" ++ nl ++ b ":0000000002AABB99" ++ nl
                   ++ b ":0000010002AABB00" ++ nl) "0"
    = (Raise e', None).
Proof.
  apply (failing_record_no_output _ _ (b ":0000010002AABB00" ++ nl)
                                  ChecksumError).
  - vm_compute. right. left. reflexivity.
  - reflexivity.
Defined.

(** C5, as stated, fails: a blank line after the header is decoded like any
    other line, and the conversion stops there. *)
Lemma blank_line_aborts_conversion :
  let input_file :=
    b "1E9602AA0000" ++ nl ++ b ":0000000002AABB99" ++ nl ++ b "  " ++ nl in
  without_blank_records input_file
  = b "1E9602AA0000" ++ nl ++ b ":0000000002AABB99" ++ nl
  /\ parse_cyacd (without_blank_records input_file) "0"
     = (Ok tt, Some [xaa; xbb])
  /\ parse_cyacd input_file "0" = (Raise StreamError, None)
  /\ parse_cyacd input_file "0"
     <> parse_cyacd (without_blank_records input_file) "0".
Proof.
  repeat split; try reflexivity. vm_compute. discriminate.
Qed.

(** C5, amended: the driver decodes a record from every line after the
    header, from the line without its leading ':' characters and then
    without the whitespace around it, and hands the records to the
    assembler in order.  A line that is blank after this stripping is
    decoded too: it holds no byte, the record decoder raises [StreamError],
    and the conversion ends without output. *)
Theorem every_line_is_decoded (input_file : bytes)
        (default_bit_value : string) :
  parse_cyacd input_file default_bit_value
  = match _print_header (PyBytes.strip (hd [] (PyBytes.readlines input_file)))
    with
    | Raise e => (Raise e, None)
    | Ok _ =>
        match decode_lines (tl (PyBytes.readlines input_file)) with
        | Raise e => (Raise e, None)
        | Ok records =>
            match add_rows records [] with
            | Raise e => (Raise e, None)
            | Ok flash_memory =>
                _write_flash_memory_to_files flash_memory default_bit_value
            end
        end
    end
  /\ Forall
       (fun line =>
          PyBytes.strip (PyBytes.lstrip PyBytes.is_colon line) = [] ->
          decode_line line = Raise StreamError
          /\ exists e,
              parse_cyacd input_file default_bit_value = (Raise e, None))
       (tl (PyBytes.readlines input_file)).
Proof.
  split.
  - unfold parse_cyacd.
    destruct (_print_header _); [|reflexivity].
    rewrite parse_rows_decode_lines.
    destruct (decode_lines _); reflexivity.
  - apply Forall_forall. intros line Hin Hblank.
    assert (Hline : decode_line line = Raise StreamError)
      by (unfold decode_line; rewrite Hblank; reflexivity).
    split; [exact Hline|].
    exact (failing_line_aborts _ _ line StreamError Hin Hline).
Qed.

Lemma every_line_is_decoded_witness :
  exists e,
    parse_cyacd (b "1E9602AA0000" ++ nl ++ b ":0000000002AABB99" ++ nl
                   ++ b "  " ++ nl) "0"
    = (Raise e, None).
Proof.
  pose proof (proj2 (every_line_is_decoded
                       (b "1E9602AA0000" ++ nl ++ b ":0000000002AABB99" ++ nl
                          ++ b "  " ++ nl) "0")) as Hlines.
  rewrite Forall_forall in Hlines.
  apply (Hlines (b "  " ++ nl)).
  - vm_compute. right. left. reflexivity.
  - reflexivity.
Defined.

(** ** Single-bit changes *)

Lemma flip_bit_changes_sum (k : Z) (x : byte) :
  0 <= k < 8 ->
  (byte.unsigned (flip_bit k x) - byte.unsigned x) mod 256 <> 0.
Proof.
  intros Hk.
  assert (Hcases : k = 0 \/ k = 1 \/ k = 2 \/ k = 3 \/ k = 4 \/ k = 5
                   \/ k = 6 \/ k = 7) by lia.
  destruct Hcases as [-> | [-> | [-> | [-> | [-> | [-> | [-> | ->]]]]]]];
    destruct x; vm_compute; discriminate.
Qed.

Lemma flip_at_length (i : nat) (k : Z) (data : bytes) :
  length (flip_at i k data) = length data.
Proof.
  revert i. induction data as [|x more IH]; intros [|j]; simpl; auto.
Qed.

Lemma flip_at_changes_sum (i : nat) (k : Z) (data : bytes) :
  (i < length data)%nat -> 0 <= k < 8 ->
  (PyBytes.sum (flip_at i k data) - PyBytes.sum data) mod 256 <> 0.
Proof.
  intros Hi Hk. revert i Hi.
  induction data as [|x more IH]; intros i Hi; simpl in Hi; [lia|].
  destruct i as [|j]; simpl.
  - replace (byte.unsigned (flip_bit k x) + PyBytes.sum more
             - (byte.unsigned x + PyBytes.sum more))
      with (byte.unsigned (flip_bit k x) - byte.unsigned x) by lia.
    now apply flip_bit_changes_sum.
  - replace (byte.unsigned x + PyBytes.sum (flip_at j k more)
             - (byte.unsigned x + PyBytes.sum more))
      with (PyBytes.sum (flip_at j k more) - PyBytes.sum more) by lia.
    apply IH. lia.
Qed.

Lemma checksum_of_differs (d1 d2 : bytes) :
  (PyBytes.sum d1 - PyBytes.sum d2) mod 256 <> 0 ->
  checksum_of d1 <> checksum_of d2.
Proof.
  rewrite !checksum_of_mod. intros Hdiff Heq. apply Hdiff.
  set (s1 := PyBytes.sum d1) in *. set (s2 := PyBytes.sum d2) in *.
  clearbody s1 s2.
  revert Heq. Z.to_euclidean_division_equations. lia.
Qed.

(** A changed record keeps its frame when the change is outside the two
    bytes of the data length. *)
Lemma flip_at_keeps_frame (i : nat) (k : Z) (a r1 r0 l1 l0 : byte)
      (payload : bytes) :
  i <> 3%nat -> i <> 4%nat ->
  exists a' r1' r0' payload',
    flip_at i k (row_prefix a r1 r0 l1 l0 ++ payload)
    = row_prefix a' r1' r0' l1 l0 ++ payload'
    /\ length payload' = length payload.
Proof.
  intros H3 H4. unfold row_prefix. cbn [app].
  destruct i as [|[|[|[|[|j]]]]]; try congruence; cbn [flip_at].
  - exists (flip_bit k a), r1, r0, payload. auto.
  - exists a, (flip_bit k r1), r0, payload. auto.
  - exists a, r1, (flip_bit k r0), payload. auto.
  - exists a, r1, r0, (flip_at j k payload).
    split; [reflexivity | apply flip_at_length].
Qed.

(** C8, as stated, fails: the header line has no checksum, and a bit
    changed in it goes unnoticed. *)
Lemma flipped_header_bit_accepted :
  let header := [x1e; x96; x02; xaa; x00; x00] in
  let records := b ":0000000002AABB99" ++ nl in
  parse_cyacd (PyBytes.hexlify header ++ nl ++ records) "0"
  = (Ok tt, Some [xaa; xbb])
  /\ parse_cyacd (PyBytes.hexlify (flip_at 0 0 header) ++ nl ++ records) "0"
     = (Ok tt, Some [xaa; xbb])
  /\ fst (parse_cyacd (PyBytes.hexlify (flip_at 0 0 header) ++ nl ++ records)
                      "0")
     <> Raise ChecksumError.
Proof.
  repeat split; try reflexivity. vm_compute. discriminate.
Qed.

(** C8, amended: for a valid record line, inverting one bit of the array
    id, of the row id or of a data byte, the checksum byte left as it is,
    makes the record decoder raise [ChecksumError]; a conversion that
    meets the changed line ends with an exception and without output.
    Nothing is claimed for the header line, which has no checksum, nor for
    the two bytes of the data length. *)
Theorem flipped_record_bit_rejected (ascii_line flipped_line : bytes)
        (a r1 r0 l1 l0 c : byte) (payload : bytes) (i : nat) (k : Z) :
  PyBytes.unhexlify ascii_line
  = Ok (row_prefix a r1 r0 l1 l0 ++ payload ++ [c]) ->
  Z.of_nat (length payload) = 256 * byte.unsigned l1 + byte.unsigned l0 ->
  checksum_of (row_prefix a r1 r0 l1 l0 ++ payload) = byte.unsigned c ->
  (i < 5 + length payload)%nat -> i <> 3%nat -> i <> 4%nat ->
  0 <= k < 8 ->
  PyBytes.unhexlify flipped_line
  = Ok (flip_at i k (row_prefix a r1 r0 l1 l0 ++ payload) ++ [c]) ->
  _parse_flash_row ascii_line = Ok (decoded_row a r1 r0 l1 l0 payload c)
  /\ _parse_flash_row flipped_line = Raise ChecksumError
  /\ forall input_file default_bit_value line,
      In line (tl (PyBytes.readlines input_file)) ->
      PyBytes.strip (PyBytes.lstrip PyBytes.is_colon line) = flipped_line ->
      exists e, parse_cyacd input_file default_bit_value = (Raise e, None).
Proof.
  intros Hhex Hlen Hsum Hi H3 H4 Hk Hflipped.
  assert (Hreject : _parse_flash_row flipped_line = Raise ChecksumError).
  { unfold _parse_flash_row. rewrite Hflipped. cbn [bind].
    assert (Hdiff : checksum_of (flip_at i k (row_prefix a r1 r0 l1 l0
                                                ++ payload))
                    <> byte.unsigned c).
    { rewrite <- Hsum. apply checksum_of_differs, flip_at_changes_sum.
      - rewrite length_app. simpl. lia.
      - exact Hk. }
    destruct (flip_at_keeps_frame i k a r1 r0 l1 l0 payload H3 H4)
      as (a' & r1' & r0' & payload' & Hframe & Hlen').
    rewrite Hframe in *. rewrite <- app_assoc.
    rewrite parse_framed_row by (rewrite Hlen'; exact Hlen).
    destruct (Z.eqb_spec (byte.unsigned c)
                (checksum_of (row_prefix a' r1' r0' l1 l0 ++ payload')));
      [congruence | reflexivity]. }
  repeat split.
  - unfold _parse_flash_row. rewrite Hhex. cbn [bind].
    rewrite parse_framed_row by exact Hlen.
    now rewrite Hsum, Z.eqb_refl.
  - exact Hreject.
  - intros input_file default_bit_value line Hin Hline.
    apply (failing_line_aborts _ _ line ChecksumError Hin).
    unfold decode_line. now rewrite Hline, Hreject.
Qed.

Lemma flipped_record_bit_rejected_witness :
  _parse_flash_row (b "0000000002AABB99")
  = Ok (decoded_row x00 x00 x00 x00 x02 [xaa; xbb] x99)
  /\ _parse_flash_row (b "0000000002AABF99") = Raise ChecksumError.
Proof.
  destruct (flipped_record_bit_rejected
              (b "0000000002AABB99") (b "0000000002AABF99")
              x00 x00 x00 x00 x02 x99 [xaa; xbb] 6%nat 2)
    as (Hvalid & Hreject & _);
    try reflexivity; try (simpl; lia); try discriminate.
  split; assumption.
Defined.

(** The two bytes of the data length are outside the reach of the
    checksum test: with bit 0 of the length changed, this record is read as
    an empty row whose checksum is its former data byte. *)
Example flipped_length_bit_accepted :
  _parse_flash_row (b "000000000100FF")
  = Ok (decoded_row x00 x00 x00 x00 x01 [x00] xff)
  /\ PyBytes.unhexlify (b "000000000000FF")
     = Ok (flip_at 4 0 (row_prefix x00 x00 x00 x00 x01 ++ [x00]) ++ [xff])
  /\ _parse_flash_row (b "000000000000FF")
     = Ok (decoded_row x00 x00 x00 x00 x00 [] x00).
Proof. repeat split; reflexivity. Qed.

(** ** Hexadecimal lines *)

Lemma hex_digits_of_byte (x : byte) :
  PyBytes.hex_digit (PyBytes.hex_char (byte.unsigned x / 16))
  = Some (byte.unsigned x / 16)
  /\ PyBytes.hex_digit (PyBytes.hex_char (byte.unsigned x mod 16))
     = Some (byte.unsigned x mod 16)
  /\ byte.of_Z (16 * (byte.unsigned x / 16) + byte.unsigned x mod 16) = x.
Proof. destruct x; repeat split; reflexivity. Qed.

(** Every byte string is the content of some line. *)
Lemma unhexlify_hexlify (data : bytes) :
  PyBytes.unhexlify (PyBytes.hexlify data) = Ok data.
Proof.
  induction data as [|x more IH]; [reflexivity|].
  destruct (hex_digits_of_byte x) as (Hhi & Hlo & Hx).
  cbn [PyBytes.hexlify PyBytes.unhexlify].
  rewrite Hhi, Hlo, IH. cbn [bind]. now rewrite Hx.
Qed.

(** ** A valid input is converted *)

Lemma get_of_key {V : Type} (d : dict V) (k : Z) :
  In k (keys d) -> exists v, get k d = Some v.
Proof.
  unfold keys. induction d as [|[k' v'] more IH]; simpl; [intros []|].
  destruct (Z.eqb_spec k' k) as [->|Hne]; [now exists v'|].
  intros [Heq | Hin]; [congruence | now apply IH].
Qed.

Lemma write_arrays_ok (flash_memory : FlashMemory)
      (default_bit_value : string) (array_ids : list Z) :
  memory_ready flash_memory ->
  incl array_ids (keys flash_memory) ->
  forall output_file,
  exists written,
    write_arrays flash_memory array_ids output_file default_bit_value
    = (Ok tt, written).
Proof.
  intros [_ Harrays] Hincl.
  induction array_ids as [|array_id more IH]; intros output_file; simpl.
  - now exists output_file.
  - destruct (get_of_key flash_memory array_id) as [rows Hrows];
      [apply Hincl; now left|].
    rewrite Hrows.
    pose proof (get_in_values _ _ _ Hrows) as Hin.
    rewrite Forall_forall in Harrays.
    destruct (array_ready_writes rows (Harrays rows Hin)) as (_ & _ & Hwrite).
    destruct (Hwrite output_file default_bit_value) as [written Hwritten].
    rewrite Hwritten.
    apply IH. intros k Hk. apply Hincl. now right.
Qed.

Lemma print_flash_memory_summary_ok (flash_memory : FlashMemory) :
  memory_ready flash_memory -> flash_memory <> [] ->
  _print_flash_memory_summary flash_memory = Ok tt.
Proof.
  intros [_ Harrays] Hne. unfold _print_flash_memory_summary.
  destruct flash_memory as [|[array_id rows] more]; [congruence|].
  cbn [values map snd py_next_iter bind].
  inversion Harrays as [|? ? [Hrows _] _]; subst.
  destruct rows as [|[row_id row] others]; [congruence|].
  pose proof (py_sorted_ascending (keys ((row_id, row) :: others))) as Hsorted.
  destruct (py_sorted (keys ((row_id, row) :: others))); [discriminate|].
  reflexivity.
Qed.

Lemma add_rows_not_empty (records : list flash_row_fields) :
  forall flash_memory assembled,
    add_rows records flash_memory = Ok assembled ->
    flash_memory <> [] \/ records <> [] ->
    assembled <> [].
Proof.
  induction records as [|x more IH]; intros flash_memory assembled; simpl.
  - intros [= <-] [Hne | Hne]; congruence.
  - rewrite add_row_ok. cbn [bind]. intros Hrows _.
    apply (IH _ _ Hrows). left. apply set_not_nil.
Qed.

(** When the header and every line decode, and there is at least one
    record, the conversion returns and leaves an output file. *)
Theorem valid_input_converts (input_file : bytes) (default_bit_value : string)
        (header : cyacd_header) (records : list flash_row_fields) :
  _print_header (PyBytes.strip (hd [] (PyBytes.readlines input_file)))
  = Ok header ->
  decode_lines (tl (PyBytes.readlines input_file)) = Ok records ->
  records <> [] ->
  exists image,
    parse_cyacd input_file default_bit_value = (Ok tt, Some image).
Proof.
  intros Hheader Hlines Hne. unfold parse_cyacd.
  rewrite Hheader, parse_rows_decode_lines, Hlines. cbn [bind].
  destruct (add_rows_ready records [] memory_ready_empty)
    as (assembled & Hrows & Hready).
  rewrite Hrows. unfold _write_flash_memory_to_files.
  rewrite print_flash_memory_summary_ok;
    [|exact Hready | apply (add_rows_not_empty _ _ _ Hrows); now right].
  destruct (write_arrays_ok assembled default_bit_value (keys assembled)
              Hready (incl_refl _) []) as [written Hwritten].
  rewrite Hwritten. now exists written.
Qed.

(** ** Sample runs *)

Example compact_rows_sample :
  _get_compact_rows_string [7; 0; 1; 2; 5; 9; 8] = Ok "0-2, 5, 7-9"%string.
Proof. reflexivity. Qed.

Example two_arrays_sample :
  parse_cyacd (b "1E9602AA0000" ++ nl ++ b ":0000000002AABB99" ++ nl
                 ++ b ":0100020001CC30" ++ nl) "1"
  = (Ok tt, Some [xaa; xbb; xff; xff; xcc]).
Proof. reflexivity. Qed.

Example header_only_sample :
  parse_cyacd (b "1E9602AA0000" ++ nl) "0" = (Raise StopIteration, None).
Proof. reflexivity. Qed.

(** * Further properties *)

(** ** Every outcome of the record decoder *)

Lemma Byte_empty (off : Z) :
  Construct.Byte (Construct.mkStream off []) = Raise StreamError.
Proof. reflexivity. Qed.

Lemma parse_short_row (a r1 r0 l1 l0 : byte) (rest : bytes) :
  Z.of_nat (length rest) <= 256 * byte.unsigned l1 + byte.unsigned l0 ->
  Construct.parse FLASH_ROW_STRUCT (row_prefix a r1 r0 l1 l0 ++ rest)
  = Raise StreamError.
Proof.
  intros Hshort.
  unfold Construct.parse, FLASH_ROW_STRUCT, Construct.RawCopy,
    FLASH_ROW_FIELDS, Construct.Bytes, Construct.Checksum, row_prefix.
  cbn [app].
  rewrite Byte_cons. cbn [bind].
  rewrite Int16ub_cons. cbn [bind].
  rewrite Int16ub_cons. cbn [bind].
  set (len := 256 * byte.unsigned l1 + byte.unsigned l0) in *.
  destruct (Z.eq_dec (Z.of_nat (length rest)) len) as [Heq | Hne].
  - rewrite <- (app_nil_r rest) at 1.
    rewrite stream_read_app by exact Heq. cbn [bind].
    cbn [Construct.offset Construct.rest Construct.data].
    now rewrite Byte_empty.
  - rewrite stream_read_short by lia. reflexivity.
Qed.

Lemma parse_flash_row_cases (ascii_line : bytes) :
  _parse_flash_row ascii_line
  = match PyBytes.unhexlify ascii_line with
    | Raise _ => Raise BinasciiError
    | Ok (a :: r1 :: r0 :: l1 :: l0 :: rest) =>
        let len := Z.to_nat (256 * byte.unsigned l1 + byte.unsigned l0) in
        match skipn len rest with
        | [] => Raise StreamError
        | c :: _ =>
            if byte.unsigned c
               =? checksum_of (row_prefix a r1 r0 l1 l0 ++ firstn len rest)
            then Ok (decoded_row a r1 r0 l1 l0 (firstn len rest) c)
            else Raise ChecksumError
        end
    | Ok _ => Raise StreamError
    end.
Proof.
  unfold _parse_flash_row.
  destruct (PyBytes.unhexlify ascii_line) as [raw|e] eqn:Hhex; cbn [bind].
  - destruct raw as [|a [|r1 [|r0 [|l1 [|l0 rest]]]]]; try reflexivity.
    cbv zeta.
    pose proof (byte.unsigned_range l1) as Hl1.
    pose proof (byte.unsigned_range l0) as Hl0.
    set (len := 256 * byte.unsigned l1 + byte.unsigned l0) in *.
    destruct (skipn (Z.to_nat len) rest) as [|c extra] eqn:Hskip.
    + apply (parse_short_row a r1 r0 l1 l0 rest).
      fold len.
      assert (length (skipn (Z.to_nat len) rest) = 0%nat)
        by (now rewrite Hskip).
      rewrite length_skipn in *. lia.
    + assert (Hlen : Z.of_nat (length (firstn (Z.to_nat len) rest)) = len).
      { assert (length (skipn (Z.to_nat len) rest) = S (length extra))
          by (now rewrite Hskip).
        rewrite length_skipn in *. rewrite length_firstn. lia. }
      rewrite <- (firstn_skipn (Z.to_nat len) rest) at 1.
      rewrite Hskip.
      exact (parse_framed_row a r1 r0 l1 l0 c _ extra Hlen).
  - apply unhexlify_raises_only_binascii in Hhex. now subst e.
Qed.

(** X1: the record decoder has four outcomes and no other.  A line that
    is not hexadecimal raises [binascii.Error].  A line that decodes to
    fewer than 6 + data_length bytes, data_length being read from the
    fourth and fifth byte, raises [StreamError].  Any other line either
    decodes to a record or raises [ChecksumError]. *)
Theorem parse_flash_row_outcomes (ascii_line : bytes) :
  match PyBytes.unhexlify ascii_line with
  | Raise _ => _parse_flash_row ascii_line = Raise BinasciiError
  | Ok raw =>
      if Z.of_nat (length raw) <? 6 + declared_length raw
      then _parse_flash_row ascii_line = Raise StreamError
      else _parse_flash_row ascii_line = Raise ChecksumError
           \/ exists flash_row, _parse_flash_row ascii_line = Ok flash_row
  end.
Proof.
  rewrite (parse_flash_row_cases ascii_line).
  destruct (PyBytes.unhexlify ascii_line) as [raw|e]; [|reflexivity].
  destruct raw as [|a [|r1 [|r0 [|l1 [|l0 rest]]]]]; try reflexivity.
  cbv zeta. unfold declared_length.
  pose proof (byte.unsigned_range l1) as Hl1.
  pose proof (byte.unsigned_range l0) as Hl0.
  set (len := 256 * byte.unsigned l1 + byte.unsigned l0) in *.
  pose proof (length_skipn (Z.to_nat len) rest) as Hskip.
  cbn [length].
  destruct (skipn (Z.to_nat len) rest) as [|c extra]; cbn [length] in Hskip.
  - replace (Z.of_nat (S (S (S (S (S (length rest)))))) <? 6 + len)
      with true by (symmetry; apply Z.ltb_lt; lia).
    reflexivity.
  - replace (Z.of_nat (S (S (S (S (S (length rest)))))) <? 6 + len)
      with false by (symmetry; apply Z.ltb_ge; lia).
    destruct (byte.unsigned c =? checksum_of _); [right | left].
    + eexists. reflexivity.
    + reflexivity.
Qed.

(** X2: a framed record is accepted exactly when the sum of all its bytes,
    the checksum byte included, is a multiple of 0x100. *)
Theorem parse_flash_row_accepts_zero_sum (ascii_line : bytes)
        (a r1 r0 l1 l0 c : byte) (payload : bytes) :
  PyBytes.unhexlify ascii_line = Ok (framed_row a r1 r0 l1 l0 payload c) ->
  Z.of_nat (length payload) = 256 * byte.unsigned l1 + byte.unsigned l0 ->
  (_parse_flash_row ascii_line = Ok (decoded_row a r1 r0 l1 l0 payload c)
   <-> PyBytes.sum (framed_row a r1 r0 l1 l0 payload c) mod 256 = 0)
  /\ (_parse_flash_row ascii_line = Raise ChecksumError
      <-> PyBytes.sum (framed_row a r1 r0 l1 l0 payload c) mod 256 <> 0).
Proof.
  intros Hhex Hlen. unfold _parse_flash_row. rewrite Hhex. cbn [bind].
  unfold framed_row. rewrite parse_framed_row by exact Hlen.
  rewrite app_assoc, sum_app, checksum_of_mod.
  set (s := PyBytes.sum (row_prefix a r1 r0 l1 l0 ++ payload)).
  cbn [PyBytes.sum]. rewrite Z.add_0_r.
  pose proof (byte.unsigned_range c) as Hc.
  assert (Hiff : byte.unsigned c = (256 - s mod 256) mod 256
                 <-> (s + byte.unsigned c) mod 256 = 0).
  { clearbody s. split; intros H; revert H;
      Z.to_euclidean_division_equations; lia. }
  destruct (Z.eqb_spec (byte.unsigned c) ((256 - s mod 256) mod 256))
    as [Heq | Hne].
  - split; split; intros H; try reflexivity; try discriminate.
    + now apply Hiff.
    + apply Hiff in Heq. contradiction.
  - split; split; intros H; try reflexivity; try discriminate.
    + apply Hiff in H. contradiction.
    + intros Hzero. apply Hne. now apply Hiff.
Qed.

Lemma parse_flash_row_accepts_zero_sum_witness :
  _parse_flash_row (b "0000000002AABB99")
  = Ok (decoded_row x00 x00 x00 x00 x02 [xaa; xbb] x99)
  <-> PyBytes.sum (framed_row x00 x00 x00 x00 x02 [xaa; xbb] x99) mod 256 = 0.
Proof.
  apply (parse_flash_row_accepts_zero_sum (b "0000000002AABB99")
           x00 x00 x00 x00 x02 x99 [xaa; xbb]); reflexivity.
Defined.

(** ** What the checksum lets through *)

Lemma sum_permutation (xs ys : bytes) :
  Permutation xs ys -> PyBytes.sum xs = PyBytes.sum ys.
Proof. induction 1; simpl; lia. Qed.

(** X3: the checksum is blind to the order of the data bytes: when a record
    is accepted, the record with the same data bytes in any other order and
    the same checksum byte is accepted too, and decodes to the reordered
    data. *)
Theorem reordered_data_accepted (ascii_line reordered_line : bytes)
        (a r1 r0 l1 l0 c : byte) (payload reordered : bytes) :
  Permutation payload reordered ->
  PyBytes.unhexlify ascii_line = Ok (framed_row a r1 r0 l1 l0 payload c) ->
  PyBytes.unhexlify reordered_line
  = Ok (framed_row a r1 r0 l1 l0 reordered c) ->
  _parse_flash_row ascii_line = Ok (decoded_row a r1 r0 l1 l0 payload c) ->
  _parse_flash_row reordered_line
  = Ok (decoded_row a r1 r0 l1 l0 reordered c).
Proof.
  intros Hperm Hhex Hhex' Haccepted.
  rewrite parse_flash_row_cases, Hhex in Haccepted.
  rewrite parse_flash_row_cases, Hhex'.
  unfold framed_row, row_prefix in *. cbn [app] in *. cbv zeta in *.
  set (len := Z.to_nat (256 * byte.unsigned l1 + byte.unsigned l0)) in *.
  destruct (skipn len (payload ++ [c])) as [|c' extra] eqn:Hskip;
    [discriminate|].
  destruct (byte.unsigned c' =? checksum_of _) eqn:Hsum; [|discriminate].
  assert (Hc : byte.unsigned c' = byte.unsigned c)
    by (injection Haccepted; auto).
  assert (Hpayload : firstn len (payload ++ [c]) = payload)
    by (injection Haccepted; auto).
  assert (Hlen : length payload = len).
  { assert (Hfirst : length (firstn len (payload ++ [c])) = length payload)
      by (now rewrite Hpayload).
    assert (Hrest : length (skipn len (payload ++ [c])) = S (length extra))
      by (now rewrite Hskip).
    rewrite length_firstn in Hfirst. rewrite length_skipn in Hrest.
    rewrite length_app in *. simpl in *. lia. }
  assert (Hlen' : length reordered = len)
    by (rewrite <- Hlen; symmetry; now apply Permutation_length).
  rewrite <- Hlen' at 1.
  rewrite skipn_app, skipn_all, Nat.sub_diag. cbn [skipn app].
  rewrite <- Hlen', firstn_length_app.
  replace (checksum_of (a :: r1 :: r0 :: l1 :: l0 :: reordered))
    with (checksum_of (a :: r1 :: r0 :: l1 :: l0 :: payload)).
  - rewrite Hpayload in Hsum.
    apply byte.unsigned_inj in Hc. subst c'.
    rewrite Hsum. reflexivity.
  - unfold checksum_of. cbn [PyBytes.sum].
    now rewrite (sum_permutation _ _ Hperm).
Qed.

Lemma reordered_data_accepted_witness :
  _parse_flash_row (b "0000000002BBAA99")
  = Ok (decoded_row x00 x00 x00 x00 x02 [xbb; xaa] x99).
Proof.
  apply (reordered_data_accepted
           (b "0000000002AABB99") (b "0000000002BBAA99")
           x00 x00 x00 x00 x02 x99 [xaa; xbb] [xbb; xaa]).
  - apply perm_swap.
  - reflexivity.
  - reflexivity.
  - reflexivity.
Defined.

(** ** Lines written from records *)

Lemma unsigned_of_Z_small (z : Z) :
  0 <= z < 256 -> byte.unsigned (byte.of_Z z) = z.
Proof.
  intros Hz. rewrite byte.unsigned_of_Z. unfold byte.wrap.
  apply Z.mod_small. lia.
Qed.

Lemma unsigned_of_Z_low (z : Z) :
  256 * byte.unsigned (byte.of_Z (z / 256)) + byte.unsigned (byte.of_Z z) = z
  <-> 0 <= z < 65536.
Proof.
  rewrite !byte.unsigned_of_Z. unfold byte.wrap.
  change (2 ^ 8) with 256.
  split; intros H.
  - revert H. Z.to_euclidean_division_equations. lia.
  - rewrite (Z.mod_small (z / 256)) by (Z.to_euclidean_division_equations; lia).
    pose proof (Z.div_mod z 256). lia.
Qed.

(** X4: every record has a line.  For an array id below 0x100, a row id
    below 0x10000 and data shorter than 0x10000 bytes, the line written
    from them decodes to exactly that array id, row id and data. *)
Theorem parse_flash_row_of_hex_line (array_id row_id : Z) (payload : bytes) :
  0 <= array_id < 256 ->
  0 <= row_id < 65536 ->
  Z.of_nat (length payload) < 65536 ->
  exists flash_row,
    _parse_flash_row (hex_line_of_row array_id row_id payload) = Ok flash_row
    /\ Construct.value (fields flash_row)
       = mkFields array_id row_id (Z.of_nat (length payload)) payload.
Proof.
  intros Ha Hr Hlen.
  unfold _parse_flash_row, hex_line_of_row. cbv zeta.
  rewrite unhexlify_hexlify. cbn [bind].
  set (len := Z.of_nat (length payload)) in *.
  assert (Hlen' : 256 * byte.unsigned (byte.of_Z (len / 256))
                  + byte.unsigned (byte.of_Z len) = len)
    by (apply unsigned_of_Z_low; lia).
  rewrite <- app_assoc.
  rewrite parse_framed_row by (rewrite Hlen'; reflexivity).
  rewrite unsigned_of_Z_small, Z.eqb_refl
    by (destruct (checksum_of_range
                    (row_prefix (byte.of_Z array_id)
                       (byte.of_Z (row_id / 256)) (byte.of_Z row_id)
                       (byte.of_Z (len / 256)) (byte.of_Z len) ++ payload));
        lia).
  eexists. split; [reflexivity|].
  unfold decoded_row. cbn [fields Construct.value].
  rewrite Hlen', unsigned_of_Z_small by exact Ha.
  rewrite (proj2 (unsigned_of_Z_low row_id)) by exact Hr.
  reflexivity.
Qed.

Lemma parse_flash_row_of_hex_line_witness :
  exists flash_row,
    _parse_flash_row (hex_line_of_row 1 258 [xaa; xbb; xcc]) = Ok flash_row
    /\ Construct.value (fields flash_row)
       = {| array_id := 1; row_id := 258; data_length := 3;
            row_data := [xaa; xbb; xcc] |}.
Proof.
  apply (parse_flash_row_of_hex_line 1 258 [xaa; xbb; xcc]);
    simpl; lia.
Defined.

(** ** What is stripped from a line *)

Lemma lstrip_all (p : byte -> bool) (xs ys : bytes) :
  forallb p xs = true -> PyBytes.lstrip p (xs ++ ys) = PyBytes.lstrip p ys.
Proof.
  induction xs as [|x more IH]; simpl; [reflexivity|].
  intros H. apply andb_true_iff in H as [Hx Hmore].
  rewrite Hx. now apply IH.
Qed.

Lemma lstrip_none (p : byte -> bool) (xs : bytes) :
  match xs with [] => True | x :: _ => p x = false end ->
  PyBytes.lstrip p xs = xs.
Proof. destruct xs as [|x more]; simpl; [reflexivity | now intros ->]. Qed.

Lemma lstrip_snoc (p : byte -> bool) (xs : bytes) (x : byte) :
  p x = false -> PyBytes.lstrip p (xs ++ [x]) = PyBytes.lstrip p xs ++ [x].
Proof.
  intros Hx. induction xs as [|y more IH]; simpl.
  - now rewrite Hx.
  - destruct (p y); [exact IH | reflexivity].
Qed.

Lemma rstrip_all (p : byte -> bool) (xs ys : bytes) :
  forallb p ys = true -> PyBytes.rstrip p (xs ++ ys) = PyBytes.rstrip p xs.
Proof.
  intros Hys. unfold PyBytes.rstrip.
  rewrite rev_app_distr, lstrip_all; [reflexivity|].
  apply forallb_forall. intros y Hy. apply in_rev in Hy.
  rewrite forallb_forall in Hys. now apply Hys.
Qed.

Lemma rstrip_cons (p : byte -> bool) (x : byte) (xs : bytes) :
  p x = false -> PyBytes.rstrip p (x :: xs) = x :: PyBytes.rstrip p xs.
Proof.
  intros Hx. unfold PyBytes.rstrip. simpl.
  now rewrite lstrip_snoc, rev_app_distr by exact Hx.
Qed.

Lemma hex_is_no_separator (c : byte) :
  is_hex c = true ->
  PyBytes.is_space c = false /\ PyBytes.is_colon c = false.
Proof. destruct c; intros H; try discriminate H; split; reflexivity. Qed.

Lemma space_is_no_colon (c : byte) :
  PyBytes.is_space c = true -> PyBytes.is_colon c = false.
Proof. destruct c; intros H; try discriminate H; reflexivity. Qed.

Lemma rstrip_hex (h : bytes) :
  forallb is_hex h = true -> PyBytes.rstrip PyBytes.is_space h = h.
Proof.
  induction h as [|x more IH]; simpl; [reflexivity|].
  intros H. apply andb_true_iff in H as [Hx Hmore].
  rewrite rstrip_cons by (now apply hex_is_no_separator).
  now rewrite IH.
Qed.

Lemma strip_padded_hex (ws1 h ws2 : bytes) :
  forallb PyBytes.is_space ws1 = true ->
  forallb PyBytes.is_space ws2 = true ->
  forallb is_hex h = true ->
  PyBytes.strip (ws1 ++ h ++ ws2) = h.
Proof.
  intros Hws1 Hws2 Hh. unfold PyBytes.strip.
  rewrite lstrip_all by exact Hws1.
  destruct h as [|x more].
  - cbn [app].
    rewrite <- (app_nil_r ws2), lstrip_all by exact Hws2. reflexivity.
  - rewrite lstrip_none.
    + rewrite rstrip_all by exact Hws2. now apply rstrip_hex.
    + cbn [app]. simpl in Hh. apply andb_true_iff in Hh as [Hx _].
      now apply hex_is_no_separator.
Qed.

(** X5: around the hexadecimal digits of a record, the driver accepts any
    number of leading ':' characters, whitespace after them, and whitespace
    at the end of the line (the line terminator, a carriage return): the
    line is decoded as its digits alone. *)
Theorem decode_line_strips_padding (colons ws1 h ws2 : bytes) :
  forallb PyBytes.is_colon colons = true ->
  forallb PyBytes.is_space ws1 = true ->
  forallb PyBytes.is_space ws2 = true ->
  forallb is_hex h = true ->
  PyBytes.strip (PyBytes.lstrip PyBytes.is_colon (colons ++ ws1 ++ h ++ ws2))
  = h
  /\ decode_line (colons ++ ws1 ++ h ++ ws2)
     = (flash_row <- _parse_flash_row h ;;
        Ok (Construct.value (fields flash_row))).
Proof.
  intros Hcolons Hws1 Hws2 Hh.
  assert (Hstrip : PyBytes.strip
                     (PyBytes.lstrip PyBytes.is_colon
                        (colons ++ ws1 ++ h ++ ws2)) = h).
  { rewrite lstrip_all by exact Hcolons.
    rewrite lstrip_none; [now apply strip_padded_hex|].
    destruct ws1 as [|w more]; cbn [app].
    - destruct h as [|x more]; cbn [app].
      + destruct ws2 as [|w more]; [exact I|].
        simpl in Hws2. apply andb_true_iff in Hws2 as [Hw _].
        now apply space_is_no_colon.
      + simpl in Hh. apply andb_true_iff in Hh as [Hx _].
        now apply hex_is_no_separator.
    - simpl in Hws1. apply andb_true_iff in Hws1 as [Hw _].
      now apply space_is_no_colon. }
  split; [exact Hstrip|].
  unfold decode_line. now rewrite Hstrip.
Qed.

Lemma decode_line_strips_padding_witness :
  decode_line (b "::" ++ b " " ++ b "0000000002AABB99" ++ [x0d; x0a])
  = (flash_row <- _parse_flash_row (b "0000000002AABB99") ;;
     Ok (Construct.value (fields flash_row))).
Proof.
  apply (decode_line_strips_padding (b "::") (b " ") (b "0000000002AABB99")
                                    [x0d; x0a]); reflexivity.
Defined.

(** X6: whitespace in front of the ':' spoils a line.  The ':' characters
    are removed before the whitespace is, so the colon stays and the line
    is refused as not hexadecimal. *)
Theorem colon_after_whitespace_refused (ws rest : bytes) :
  ws <> [] ->
  forallb PyBytes.is_space ws = true ->
  decode_line (ws ++ b ":" ++ rest) = Raise BinasciiError.
Proof.
  intros Hne Hws. unfold decode_line.
  rewrite lstrip_none.
  - unfold PyBytes.strip. rewrite lstrip_all by exact Hws.
    change (b ":" ++ rest) with (x3a :: rest).
    rewrite lstrip_none by reflexivity.
    rewrite rstrip_cons by reflexivity.
    unfold _parse_flash_row.
    destruct (PyBytes.rstrip PyBytes.is_space rest) as [|lo more];
      reflexivity.
  - destruct ws as [|w more]; [congruence|]. cbn [app].
    simpl in Hws. apply andb_true_iff in Hws as [Hw _].
    now apply space_is_no_colon.
Qed.

Lemma colon_after_whitespace_refused_witness :
  decode_line (b " " ++ b ":" ++ b "0000000002AABB99") = Raise BinasciiError.
Proof.
  apply (colon_after_whitespace_refused (b " ") (b "0000000002AABB99")).
  - discriminate.
  - reflexivity.
Defined.

(** ** Which exception the driver reports *)

Lemma decode_lines_first_failure (good rest : list bytes) (bad : bytes)
      (records : list flash_row_fields) (e : exn) :
  decode_lines good = Ok records ->
  decode_line bad = Raise e ->
  decode_lines (good ++ bad :: rest) = Raise e.
Proof.
  revert records. induction good as [|line more IH]; intros records; simpl.
  - intros _ Hbad. now rewrite Hbad.
  - destruct (decode_line line) as [flash_row|e1]; cbn [bind]; [|discriminate].
    destruct (decode_lines more) as [others|e2] eqn:Hmore; cbn [bind];
      [|discriminate].
    intros _ Hbad. now rewrite (IH others eq_refl Hbad).
Qed.

(** X7: the driver reports the first failure in file order.  A header that
    does not decode raises its exception whatever follows; after a good
    header, the exception is that of the first line that does not decode,
    whatever the later lines hold.  In both cases no output file is
    opened. *)
Theorem first_failure_is_reported (input_file : bytes)
        (default_bit_value : string) (e : exn) :
  (_print_header (PyBytes.strip (hd [] (PyBytes.readlines input_file)))
   = Raise e ->
   parse_cyacd input_file default_bit_value = (Raise e, None))
  /\ (forall header good bad rest records,
         _print_header (PyBytes.strip (hd [] (PyBytes.readlines input_file)))
         = Ok header ->
         tl (PyBytes.readlines input_file) = good ++ bad :: rest ->
         decode_lines good = Ok records ->
         decode_line bad = Raise e ->
         parse_cyacd input_file default_bit_value = (Raise e, None)).
Proof.
  split.
  - intros Hheader. unfold parse_cyacd. now rewrite Hheader.
  - intros header good bad rest records Hheader Hlines Hgood Hbad.
    unfold parse_cyacd.
    rewrite Hheader, parse_rows_decode_lines, Hlines.
    now rewrite (decode_lines_first_failure _ _ _ _ _ Hgood Hbad).
Qed.

Lemma first_failure_is_reported_witness :
  parse_cyacd (b "1E9602AA0000" ++ nl ++ b ":0000000002AABB99" ++ nl
                 ++ b ":0000010002AABB00" ++ nl ++ b ":zz" ++ nl) "0"
  = (Raise ChecksumError, None).
Proof.
  apply (proj2 (first_failure_is_reported _ "0" ChecksumError)
               {| silicon_id := 513147562; silicon_revision := 0;
                  checksum_type := checksum_type_of_tag 0 |}
               [b ":0000000002AABB99" ++ nl]
               (b ":0000010002AABB00" ++ nl)
               [b ":zz" ++ nl]
               [{| array_id := 0; row_id := 0; data_length := 2;
                   row_data := [xaa; xbb] |}]);
    reflexivity.
Defined.

Lemma readlines_from_one_line (line cur : bytes) :
  forallb (fun c => negb (is_newline c)) line = true ->
  PyBytes.readlines_from cur (line ++ nl) = [rev cur ++ line ++ nl]
  /\ PyBytes.readlines_from cur line
     = match rev cur ++ line with
       | [] => []
       | whole => [whole]
       end.
Proof.
  revert cur. induction line as [|c more IH]; intros cur Hline.
  - split; [reflexivity|].
    rewrite app_nil_r. simpl.
    destruct cur as [|x cur']; [reflexivity|].
    destruct (rev (x :: cur')) eqn:Hrev; [|reflexivity].
    apply (f_equal (@length _)) in Hrev. rewrite length_rev in Hrev.
    discriminate.
  - simpl in Hline. apply andb_true_iff in Hline as [Hc Hmore].
    destruct (IH (c :: cur) Hmore) as [Hterminated Hopen].
    assert (Hstep : forall tail,
               PyBytes.readlines_from cur (c :: tail)
               = PyBytes.readlines_from (c :: cur) tail).
    { intros tail. destruct c; try reflexivity. discriminate Hc. }
    cbn [app]. rewrite !Hstep, Hterminated, Hopen.
    simpl. rewrite <- !app_assoc. split; reflexivity.
Qed.

(** X8: an input that holds a good header line and nothing after it, with
    or without the line terminator, is not converted: the summary of the
    empty memory raises [StopIteration] before the output file is
    opened. *)
Theorem header_without_records (header_line ending : bytes)
        (default_bit_value : string) (header : cyacd_header) :
  forallb (fun c => negb (is_newline c)) header_line = true ->
  ending = [] \/ ending = nl ->
  _print_header (PyBytes.strip (header_line ++ ending)) = Ok header ->
  parse_cyacd (header_line ++ ending) default_bit_value
  = (Raise StopIteration, None).
Proof.
  intros Hline Hending Hheader.
  destruct (readlines_from_one_line header_line [] Hline)
    as [Hterminated Hopen].
  unfold parse_cyacd, PyBytes.readlines.
  destruct Hending as [-> | ->].
  - rewrite app_nil_r in *. rewrite Hopen. cbn [rev app].
    destruct header_line as [|c more]; [discriminate Hheader|].
    cbn [hd tl]. now rewrite Hheader.
  - rewrite Hterminated. cbn [rev app hd tl]. now rewrite Hheader.
Qed.

Lemma header_without_records_witness :
  parse_cyacd (b "1E9602AA0000" ++ nl) "1" = (Raise StopIteration, None).
Proof.
  apply (header_without_records (b "1E9602AA0000") nl "1"
           {| silicon_id := 513147562; silicon_revision := 0;
              checksum_type := checksum_type_of_tag 0 |}).
  - reflexivity.
  - now right.
  - reflexivity.
Defined.

(** ** The order of the assembled memory *)

Lemma keys_set {V : Type} (d : dict V) (k : Z) (v : V) :
  keys (set k v d)
  = if existsb (Z.eqb k) (keys d) then keys d else keys d ++ [k].
Proof.
  rewrite <- contains_existsb.
  destruct (contains k d) eqn:Hk.
  - now apply keys_set_present.
  - now apply keys_set_absent.
Qed.

Lemma add_rows_keys (records : list flash_row_fields) :
  forall flash_memory,
  exists assembled,
    add_rows records flash_memory = Ok assembled
    /\ keys assembled
       = first_seen_from (keys flash_memory) (map array_id records)
    /\ forall a rows,
        get a assembled = Some rows ->
        keys rows
        = first_seen_from
            (keys (match get a flash_memory with
                   | Some old => old
                   | None => []
                   end))
            (map row_id (rows_of_array a records)).
Proof.
  induction records as [|x more IH]; intros flash_memory.
  - exists flash_memory. repeat split.
    intros a rows Hrows. now rewrite Hrows.
  - cbn [add_rows]. rewrite add_row_ok. cbn [bind].
    destruct (IH (set (array_id x)
                      (set (row_id x) (row_data x)
                           (match get (array_id x) flash_memory with
                            | Some old => old
                            | None => []
                            end))
                      flash_memory))
      as (assembled & Hrows & Hkeys & Harrays).
    exists assembled. split; [exact Hrows|]. split.
    + rewrite Hkeys, keys_set. reflexivity.
    + intros a rows Hget. rewrite (Harrays a rows Hget).
      rewrite get_set. unfold rows_of_array. cbn [filter].
      rewrite (Z.eqb_sym a).
      destruct (array_id x =? a) eqn:Ha.
      * apply Z.eqb_eq in Ha. subst a.
        cbn [map first_seen_from]. now rewrite keys_set.
      * reflexivity.
Qed.

(** X9: the assembled memory keeps the order of the input.  Its array ids
    are the distinct array ids of the records in the order in which they
    first occur, and the row ids of each array are the distinct row ids of
    the records of that array, again in the order of first occurrence. *)
Theorem assembled_order_is_first_seen (records : list flash_row_fields) :
  exists assembled,
    add_rows records [] = Ok assembled
    /\ keys assembled = first_seen (map array_id records)
    /\ forall a rows,
        get a assembled = Some rows ->
        keys rows = first_seen (map row_id (rows_of_array a records)).
Proof.
  destruct (add_rows_keys records []) as (assembled & Hrows & Hkeys & Harrays).
  exists assembled. repeat split; try assumption.
Qed.

Lemma assembled_order_is_first_seen_witness :
  exists assembled,
    add_rows [mkFields 1 5 1 [xaa]; mkFields 0 2 1 [xbb];
              mkFields 1 0 1 [xcc]; mkFields 1 5 1 [xdd]] []
    = Ok assembled
    /\ keys assembled = [1; 0]
    /\ forall rows, get 1 assembled = Some rows -> keys rows = [5; 0].
Proof.
  destruct (assembled_order_is_first_seen
              [mkFields 1 5 1 [xaa]; mkFields 0 2 1 [xbb];
               mkFields 1 0 1 [xcc]; mkFields 1 5 1 [xdd]])
    as (assembled & Hrows & Hkeys & Harrays).
  exists assembled. split; [exact Hrows|]. split; [exact Hkeys|].
  intros rows Hget. exact (Harrays 1 rows Hget).
Defined.

(** ** The width of the filler *)

Lemma first_seen_from_head (ids : list Z) :
  forall first seen,
  exists others, first_seen_from (first :: seen) ids = first :: others.
Proof.
  induction ids as [|id more IH]; intros first seen; cbn [first_seen_from].
  - now exists seen.
  - destruct (existsb (Z.eqb id) (first :: seen)).
    + apply IH.
    + apply (IH first (seen ++ [id])).
Qed.

(** X10: the width of the filler of an array is set by the first record
    of that array: it is the length of the data last written to the row id
    that this first record names, whatever the lengths of the other rows. *)
Theorem filler_width_is_first_row (records : list flash_row_fields) :
  exists assembled,
    add_rows records [] = Ok assembled
    /\ forall a rows,
        get a assembled = Some rows ->
        exists first later stored,
          rows_of_array a records = first :: later
          /\ last_write a (row_id first) records = Some stored
          /\ first_row_length rows = Z.of_nat (length stored).
Proof.
  destruct (add_rows_keys records []) as (assembled & Hrows & _ & Harrays).
  destruct (add_rows_lookup records []) as (assembled' & Hrows' & Hlookup).
  rewrite Hrows in Hrows'. injection Hrows' as <-.
  destruct (add_rows_ready records [] memory_ready_empty)
    as (assembled' & Hrows' & _ & Hready).
  rewrite Hrows in Hrows'. injection Hrows' as <-.
  exists assembled. split; [exact Hrows|].
  intros a rows Hget.
  specialize (Harrays a rows Hget). cbn [get keys map] in Harrays.
  pose proof (get_in_values _ _ _ Hget) as Hin.
  rewrite Forall_forall in Hready.
  destruct (Hready rows Hin) as [Hne _].
  destruct (rows_of_array a records) as [|first later] eqn:Hfilter.
  - destruct rows; [congruence | discriminate Harrays].
  - exists first, later.
    cbn [map first_seen_from existsb app] in Harrays.
    destruct (first_seen_from_head (map row_id later) (row_id first) [])
      as [others Hhead].
    rewrite Hhead in Harrays.
    destruct rows as [|[k stored] more]; [congruence|].
    injection Harrays as Hk _. subst k.
    exists stored. repeat split.
    specialize (Hlookup a (row_id first)).
    unfold lookup_row in Hlookup. rewrite Hget in Hlookup.
    cbn [get] in Hlookup. rewrite Z.eqb_refl in Hlookup.
    destruct (last_write a (row_id first) records); congruence.
Qed.

Lemma filler_width_is_first_row_witness :
  exists assembled,
    add_rows [mkFields 0 3 1 [xaa]; mkFields 0 0 2 [xbb; xbb];
              mkFields 0 3 3 [xcc; xcc; xcc]] []
    = Ok assembled
    /\ forall rows,
        get 0 assembled = Some rows ->
        exists stored,
          last_write 0 3 [mkFields 0 3 1 [xaa]; mkFields 0 0 2 [xbb; xbb];
                          mkFields 0 3 3 [xcc; xcc; xcc]]
          = Some stored
          /\ first_row_length rows = Z.of_nat (length stored).
Proof.
  destruct (filler_width_is_first_row
              [mkFields 0 3 1 [xaa]; mkFields 0 0 2 [xbb; xbb];
               mkFields 0 3 3 [xcc; xcc; xcc]])
    as (assembled & Hrows & Harrays).
  exists assembled. split; [exact Hrows|].
  intros rows Hget.
  destruct (Harrays 0 rows Hget) as (first & later & stored & Hfirst & Hlast & Hwidth).
  injection Hfirst as <- _.
  exists stored. split; [exact Hlast | exact Hwidth].
Defined.

(** ** What a decoded record holds *)

(** X11: whatever line it comes from, a decoded record has an array id
    below 0x100, a row id and a data length below 0x10000, exactly
    data_length bytes of data, and a checksum field equal to the checksum
    of the bytes that [RawCopy] kept. *)
Theorem decoded_row_is_well_formed (ascii_line : bytes)
        (flash_row : flash_row) :
  _parse_flash_row ascii_line = Ok flash_row ->
  let row := Construct.value (fields flash_row) in
  0 <= array_id row < 256
  /\ 0 <= row_id row < 65536
  /\ 0 <= data_length row < 65536
  /\ Z.of_nat (length (row_data row)) = data_length row
  /\ Construct.length_ (fields flash_row) = 5 + data_length row
  /\ checksum flash_row = checksum_of (Construct.data (fields flash_row)).
Proof.
  rewrite (parse_flash_row_cases ascii_line).
  destruct (PyBytes.unhexlify ascii_line) as [raw|e]; [|discriminate].
  destruct raw as [|a [|r1 [|r0 [|l1 [|l0 rest]]]]]; try discriminate.
  cbv zeta.
  pose proof (byte.unsigned_range a) as Ha.
  pose proof (byte.unsigned_range r1) as Hr1.
  pose proof (byte.unsigned_range r0) as Hr0.
  pose proof (byte.unsigned_range l1) as Hl1.
  pose proof (byte.unsigned_range l0) as Hl0.
  set (len := 256 * byte.unsigned l1 + byte.unsigned l0) in *.
  pose proof (length_skipn (Z.to_nat len) rest) as Hskip.
  destruct (skipn (Z.to_nat len) rest) as [|c extra]; [discriminate|].
  cbn [length] in Hskip.
  destruct (Z.eqb_spec (byte.unsigned c)
              (checksum_of (row_prefix a r1 r0 l1 l0
                              ++ firstn (Z.to_nat len) rest)))
    as [Hsum|]; [|discriminate].
  intros [= <-].
  unfold decoded_row.
  cbn [fields checksum Construct.value Construct.data Construct.length_
       array_id row_id data_length row_data].
  fold len. rewrite length_firstn.
  change (2 ^ 8) with 256 in *.
  repeat split; lia.
Qed.

Lemma decoded_row_is_well_formed_witness :
  let row :=
    Construct.value (fields (decoded_row x00 x01 x02 x00 x02 [xaa; xbb] x96))
  in
  0 <= array_id row < 256
  /\ 0 <= row_id row < 65536
  /\ 0 <= data_length row < 65536
  /\ Z.of_nat (length (row_data row)) = data_length row
  /\ Construct.length_
       (fields (decoded_row x00 x01 x02 x00 x02 [xaa; xbb] x96))
     = 5 + data_length row
  /\ checksum (decoded_row x00 x01 x02 x00 x02 [xaa; xbb] x96)
     = checksum_of
         (Construct.data
            (fields (decoded_row x00 x01 x02 x00 x02 [xaa; xbb] x96))).
Proof.
  exact (decoded_row_is_well_formed (b "0001020002AABB96")
           (decoded_row x00 x01 x02 x00 x02 [xaa; xbb] x96) eq_refl).
Defined.

(** ** The image writer on any array *)

Lemma write_flash_array_is_array_image (rows : FlashArray)
      (output_file : bytes) (default_bit_value : string) :
  array_ready rows ->
  _write_flash_array_to_file rows output_file default_bit_value
  = Ok (output_file ++ array_image default_bit_value rows).
Proof.
  intros [Hne Hdistinct].
  destruct (write_flash_array_general rows output_file default_bit_value
              Hne Hdistinct) as (m & _ & _ & Hmax & Hwrite).
  unfold array_image. now rewrite Hmax.
Qed.

Lemma py_range_in (n r : Z) : In r (py_range n) <-> 0 <= r < n.
Proof.
  unfold py_range. rewrite in_map_iff. split.
  - intros (i & <- & Hi). apply in_seq in Hi. lia.
  - intros Hr. exists (Z.to_nat r). split; [lia|].
    apply in_seq. lia.
Qed.

(** X12: the image writer raises for the empty array only, with the
    [ValueError] of [max()], and before anything is written.  For any
    other array it keeps what the file holds and appends the rows 0 to the
    largest row id: each present row as it is stored, whatever its length,
    and each absent row as filler of the length of the first row. *)
Theorem write_flash_array_fails_only_on_empty (flash_array : FlashArray)
        (output_file : bytes) (default_bit_value : string) :
  all_distinct (keys flash_array) = true ->
  match flash_array with
  | [] =>
      _write_flash_array_to_file flash_array output_file default_bit_value
      = Raise ValueError
  | (_, first_row) :: _ =>
      exists max_row,
        In max_row (keys flash_array)
        /\ Forall (fun k => k <= max_row) (keys flash_array)
        /\ _write_flash_array_to_file flash_array output_file
                                      default_bit_value
           = Ok (output_file
                   ++ concat
                        (map (fun row_id =>
                                match get row_id flash_array with
                                | Some row => row
                                | None =>
                                    repeat (fill_byte default_bit_value)
                                           (length first_row)
                                end)
                             (py_range (max_row + 1))))
  end.
Proof.
  intros Hdistinct.
  destruct flash_array as [|[k first_row] more] eqn:Harray; [reflexivity|].
  rewrite <- Harray in *.
  assert (Hne : flash_array <> []) by (rewrite Harray; discriminate).
  destruct (write_flash_array_general flash_array output_file
              default_bit_value Hne Hdistinct)
    as (m & Hin & Hall & _ & Hwrite).
  exists m. repeat split; try assumption.
  rewrite Hwrite. do 3 f_equal.
  apply map_ext. intros row_id. unfold row_image, PyBytes.repeat_byte.
  destruct (get row_id flash_array); [reflexivity|].
  unfold first_row_length. rewrite Harray. cbn [values map snd].
  now rewrite Nat2Z.id.
Qed.

Lemma write_flash_array_fails_only_on_empty_witness :
  exists max_row,
    In max_row [3; 0]
    /\ _write_flash_array_to_file [(3, [xbb]); (0, [xaa; xaa])] [] "1"
       = Ok (concat
               (map (fun row_id =>
                       match get row_id [(3, [xbb]); (0, [xaa; xaa])] with
                       | Some row => row
                       | None => repeat (fill_byte "1") 1
                       end)
                    (py_range (max_row + 1)))).
Proof.
  destruct (write_flash_array_fails_only_on_empty
              [(3, [xbb]); (0, [xaa; xaa])] [] "1" eq_refl)
    as (max_row & Hin & _ & Hwrite).
  exists max_row. split; [exact Hin | exact Hwrite].
Defined.

(** X13: when every row from 0 to the largest row id is present, the image
    is the stored rows in ascending order of row id, and the default bit
    value plays no part in it. *)
Theorem dense_array_ignores_default_bit (flash_array : FlashArray)
        (output_file : bytes) (default_bit_value : string) (max_row : Z) :
  all_distinct (keys flash_array) = true ->
  py_max (keys flash_array) = Ok max_row ->
  Forall (fun row_id => contains row_id flash_array = true)
         (py_range (max_row + 1)) ->
  _write_flash_array_to_file flash_array output_file default_bit_value
  = Ok (output_file
          ++ concat (map (fun row_id =>
                            match get row_id flash_array with
                            | Some row => row
                            | None => []
                            end)
                         (py_range (max_row + 1))))
  /\ forall other_bit_value,
      _write_flash_array_to_file flash_array output_file other_bit_value
      = _write_flash_array_to_file flash_array output_file default_bit_value.
Proof.
  intros Hdistinct Hmax Hdense.
  assert (Hne : flash_array <> [])
    by (intros ->; discriminate Hmax).
  assert (Himage : forall bit_value,
             _write_flash_array_to_file flash_array output_file bit_value
             = Ok (output_file
                     ++ concat (map (fun row_id =>
                                       match get row_id flash_array with
                                       | Some row => row
                                       | None => []
                                       end)
                                    (py_range (max_row + 1))))).
  { intros bit_value.
    destruct (write_flash_array_general flash_array output_file bit_value
                Hne Hdistinct) as (m & _ & _ & Hmax' & Hwrite).
    rewrite Hmax in Hmax'. injection Hmax' as <-.
    rewrite Hwrite. do 3 f_equal.
    apply map_ext_in. intros row_id Hin.
    rewrite Forall_forall in Hdense. specialize (Hdense row_id Hin).
    unfold contains in Hdense. unfold row_image.
    destruct (get row_id flash_array); [reflexivity | discriminate]. }
  split; [apply Himage|].
  intros other_bit_value. now rewrite !Himage.
Qed.

Lemma dense_array_ignores_default_bit_witness :
  _write_flash_array_to_file [(1, [xbb]); (0, [xaa])] [] "1"
  = _write_flash_array_to_file [(1, [xbb]); (0, [xaa])] [] "0".
Proof.
  apply (proj2 (dense_array_ignores_default_bit
                  [(1, [xbb]); (0, [xaa])] [] "0" 1 eq_refl eq_refl
                  (Forall_cons 0 eq_refl
                     (Forall_cons 1 eq_refl (Forall_nil _))))).
Defined.

(** ** The image of a whole conversion *)

Lemma get_keys_values {V : Type} (d : dict V) :
  all_distinct (keys d) = true ->
  map (fun k => get k d) (keys d) = map Some (values d).
Proof.
  unfold keys, values. induction d as [|[k v] more IH]; [reflexivity|].
  cbn [map fst snd all_distinct]. intros Hd.
  apply andb_true_iff in Hd as [Hk Hmore].
  cbn [get]. rewrite Z.eqb_refl. f_equal.
  rewrite <- (IH Hmore). apply map_ext_in. intros k' Hin.
  destruct (Z.eqb_spec k k') as [<-|]; [|reflexivity].
  apply negb_true_iff in Hk.
  assert (Hex : existsb (Z.eqb k) (map fst more) = true)
    by (apply existsb_exists; exists k; split; [exact Hin | apply Z.eqb_refl]).
  congruence.
Qed.

Lemma write_arrays_image (flash_memory : FlashMemory)
      (default_bit_value : string) (array_ids : list Z) :
  memory_ready flash_memory ->
  incl array_ids (keys flash_memory) ->
  forall output_file,
    write_arrays flash_memory array_ids output_file default_bit_value
    = (Ok tt,
       output_file
         ++ concat (map (fun array_id =>
                           match get array_id flash_memory with
                           | Some rows => array_image default_bit_value rows
                           | None => []
                           end)
                        array_ids)).
Proof.
  intros [_ Harrays] Hincl.
  induction array_ids as [|array_id more IH]; intros output_file; simpl.
  - now rewrite app_nil_r.
  - destruct (get_of_key flash_memory array_id) as [rows Hrows];
      [apply Hincl; now left|].
    rewrite Hrows.
    pose proof (get_in_values _ _ _ Hrows) as Hin.
    rewrite Forall_forall in Harrays.
    rewrite write_flash_array_is_array_image by (now apply Harrays).
    rewrite IH by (intros k Hk; apply Hincl; now right).
    now rewrite app_assoc.
Qed.

(** X14: when the header and every line decode and there is at least one
    record, the conversion returns and the output file holds the images of
    the assembled arrays one after the other, in the order of the
    assembled memory, with nothing between them. *)
Theorem conversion_writes_array_images (input_file : bytes)
        (default_bit_value : string) (header : cyacd_header)
        (records : list flash_row_fields) :
  _print_header (PyBytes.strip (hd [] (PyBytes.readlines input_file)))
  = Ok header ->
  decode_lines (tl (PyBytes.readlines input_file)) = Ok records ->
  records <> [] ->
  exists assembled,
    add_rows records [] = Ok assembled
    /\ parse_cyacd input_file default_bit_value
       = (Ok tt,
          Some (concat (map (array_image default_bit_value)
                            (values assembled)))).
Proof.
  intros Hheader Hlines Hne.
  destruct (add_rows_ready records [] memory_ready_empty)
    as (assembled & Hrows & Hready).
  exists assembled. split; [exact Hrows|].
  unfold parse_cyacd.
  rewrite Hheader, parse_rows_decode_lines, Hlines. cbn [bind].
  rewrite Hrows. unfold _write_flash_memory_to_files.
  rewrite print_flash_memory_summary_ok;
    [|exact Hready | apply (add_rows_not_empty _ _ _ Hrows); now right].
  rewrite (write_arrays_image assembled default_bit_value (keys assembled)
             Hready (incl_refl _) []).
  cbn [app]. do 3 f_equal.
  destruct Hready as [Hdistinct _].
  rewrite <- (map_map (fun k => get k assembled)
                (fun found => match found with
                              | Some rows => array_image default_bit_value rows
                              | None => []
                              end)).
  rewrite (get_keys_values assembled Hdistinct), map_map.
  reflexivity.
Qed.

Lemma conversion_writes_array_images_witness :
  exists assembled,
    add_rows [mkFields 1 1 1 [xcc]; mkFields 0 0 2 [xaa; xbb]] []
    = Ok assembled
    /\ parse_cyacd (b "1E9602AA0000" ++ nl ++ b ":0100010001CC31" ++ nl
                      ++ b ":0000000002AABB99" ++ nl) "1"
       = (Ok tt, Some (concat (map (array_image "1") (values assembled)))).
Proof.
  apply (conversion_writes_array_images _ "1"
           {| silicon_id := 513147562; silicon_revision := 0;
              checksum_type := checksum_type_of_tag 0 |}
           [mkFields 1 1 1 [xcc]; mkFields 0 0 2 [xaa; xbb]]).
  - reflexivity.
  - reflexivity.
  - discriminate.
Defined.

(** ** The row summary *)

(** X15: the row summary raises [AssertionError] exactly for an empty list
    of row ids and for a list that repeats a row id; for any other list it
    returns a string: the assertion of [_interval_to_string] never
    fails. *)
Theorem compact_rows_string_asserts (row_ids : list Z) :
  if match row_ids with [] => false | _ => all_distinct row_ids end
  then exists summary, _get_compact_rows_string row_ids = Ok summary
  else _get_compact_rows_string row_ids = Raise AssertionError.
Proof.
  destruct row_ids as [|x more]; [reflexivity|].
  destruct (all_distinct (x :: more)) eqn:Hdistinct.
  - apply get_compact_rows_string_ok; [discriminate | exact Hdistinct].
  - unfold _get_compact_rows_string. now rewrite Hdistinct.
Qed.

Lemma all_distinct_NoDup (xs : list Z) :
  all_distinct xs = true <-> NoDup xs.
Proof.
  induction xs as [|x more IH]; simpl.
  - split; [constructor | reflexivity].
  - rewrite andb_true_iff, negb_true_iff, IH. split.
    + intros [Hx Hmore]. constructor; [|exact Hmore].
      intros Hin.
      assert (existsb (Z.eqb x) more = true)
        by (apply existsb_exists; exists x; split;
            [exact Hin | apply Z.eqb_refl]).
      congruence.
    + intros Hnd. inversion Hnd as [|? ? Hx Hmore]; subst.
      split; [|exact Hmore].
      destruct (existsb (Z.eqb x) more) eqn:Hex; [|reflexivity].
      apply existsb_exists in Hex as (y & Hin & Heq).
      apply Z.eqb_eq in Heq. subst y. contradiction.
Qed.

Lemma all_distinct_permutation (xs ys : list Z) :
  Permutation xs ys -> all_distinct xs = all_distinct ys.
Proof.
  intros Hperm.
  destruct (all_distinct xs) eqn:Hxs, (all_distinct ys) eqn:Hys;
    try reflexivity.
  - apply all_distinct_NoDup in Hxs.
    apply (Permutation_NoDup Hperm), all_distinct_NoDup in Hxs. congruence.
  - apply all_distinct_NoDup in Hys.
    apply (Permutation_NoDup (Permutation_sym Hperm)), all_distinct_NoDup
      in Hys.
    congruence.
Qed.

Lemma insert_sorted_swap (x y : Z) (xs : list Z) :
  insert_sorted x (insert_sorted y xs) = insert_sorted y (insert_sorted x xs).
Proof.
  induction xs as [|z more IH]; simpl.
  - destruct (Z.leb_spec x y), (Z.leb_spec y x); try reflexivity; try lia.
    now replace y with x by lia.
  - destruct (Z.leb_spec y z), (Z.leb_spec x z); simpl;
      destruct (Z.leb_spec x y), (Z.leb_spec y x); simpl;
      repeat match goal with
             | |- context [?u <=? ?v] => destruct (Z.leb_spec u v); simpl
             end;
      try lia; try reflexivity.
    + now replace y with x by lia.
    + now rewrite IH.
    + now rewrite IH.
    + now rewrite IH.
Qed.

Lemma py_sorted_permutation (xs ys : list Z) :
  Permutation xs ys -> py_sorted xs = py_sorted ys.
Proof.
  induction 1 as [| x xs ys _ IH | x y xs | xs ys zs _ IH1 _ IH2]; simpl.
  - reflexivity.
  - now rewrite IH.
  - apply insert_sorted_swap.
  - now rewrite IH1.
Qed.

(** X16: the row summary does not depend on the order in which the row ids
    are handed over, hence not on the order of the records in the input:
    whether it raises, and the string it returns, are the same for two
    lists that hold the same row ids. *)
Theorem compact_rows_string_ignores_order (row_ids reordered : list Z) :
  Permutation row_ids reordered ->
  _get_compact_rows_string reordered = _get_compact_rows_string row_ids.
Proof.
  intros Hperm. unfold _get_compact_rows_string.
  rewrite <- (all_distinct_permutation _ _ Hperm).
  rewrite <- (py_sorted_permutation _ _ Hperm).
  destruct row_ids as [|x more].
  - apply Permutation_nil in Hperm. now subst reordered.
  - destruct reordered as [|y others]; [|reflexivity].
    apply Permutation_sym, Permutation_nil in Hperm. discriminate.
Qed.

Lemma compact_rows_string_ignores_order_witness :
  _get_compact_rows_string [5; 0; 1] = _get_compact_rows_string [0; 1; 5].
Proof.
  apply (compact_rows_string_ignores_order [0; 1; 5] [5; 0; 1]).
  apply Permutation_sym.
  apply (Permutation_cons_app [0; 1] [] 5). apply Permutation_refl.
Defined.

Section RowRuns.
Variable c : Z.

Let run (a len : nat) : list Z :=
  map (fun i => c + Z.of_nat i) (seq a len).

Lemma run_lower_bound (len a : nat) :
  Forall (fun x => c + Z.of_nat a <= x) (run a len).
Proof.
  revert a. induction len as [|len IH]; intros a; simpl; constructor.
  - lia.
  - eapply Forall_impl; [|apply (IH (S a))]. simpl. intros x Hx. lia.
Qed.

Lemma run_all_distinct (len a : nat) : all_distinct (run a len) = true.
Proof.
  revert a. induction len as [|len IH]; intros a; [reflexivity|].
  change (run a (S len)) with ((c + Z.of_nat a) :: run (S a) len).
  cbn [all_distinct].
  rewrite (IH (S a)), andb_true_r. apply negb_true_iff.
  destruct (existsb _ _) eqn:Hex; [|reflexivity].
  apply existsb_exists in Hex as (x & Hin & Heq).
  apply Z.eqb_eq in Heq.
  pose proof (run_lower_bound len (S a)) as Hbound.
  rewrite Forall_forall in Hbound. specialize (Hbound x Hin). lia.
Qed.

Lemma run_py_sorted (len a : nat) : py_sorted (run a len) = run a len.
Proof.
  revert a. induction len as [|len IH]; intros a; [reflexivity|].
  change (run a (S len)) with ((c + Z.of_nat a) :: run (S a) len).
  cbn [py_sorted fold_right].
  change (fold_right insert_sorted [] (run (S a) len))
    with (py_sorted (run (S a) len)).
  rewrite IH.
  pose proof (run_lower_bound len (S a)) as Hbound.
  destruct (run (S a) len) as [|y more]; [reflexivity|].
  inversion Hbound; subst. simpl.
  destruct (Z.leb_spec (c + Z.of_nat a) y); [reflexivity | lia].
Qed.

Lemma run_compact_intervals (len : nat) :
  forall a last_interval_start previous,
    previous + 1 = c + Z.of_nat a ->
    compact_intervals last_interval_start previous (run a len)
    = (s <- _interval_to_string last_interval_start
                                (previous + Z.of_nat len) ;;
       Ok [s]).
Proof.
  induction len as [|len IH]; intros a start previous Hnext.
  - simpl. now rewrite Z.add_0_r.
  - change (run a (S len)) with ((c + Z.of_nat a) :: run (S a) len).
    cbn [compact_intervals].
    replace (c + Z.of_nat a >? previous + 1) with false
      by (symmetry; rewrite Z.gtb_ltb; apply Z.ltb_ge; lia).
    rewrite (IH (S a)) by lia.
    now replace (c + Z.of_nat a + Z.of_nat len)
      with (previous + Z.of_nat (S len)) by lia.
Qed.

Lemma run_compact_rows_string (len : nat) :
  all_distinct (run 0 (S len)) = true
  /\ match py_sorted (run 0 (S len)) with
     | [] => Raise IndexError
     | first :: more =>
         interval_strings <- compact_intervals first first more ;;
         Ok (String.concat ", " interval_strings)
     end
     = _interval_to_string c (c + Z.of_nat len).
Proof.
  split; [apply run_all_distinct|].
  rewrite (run_py_sorted (S len) 0).
  change (run 0 (S len)) with ((c + Z.of_nat 0) :: run 1 len).
  cbv iota.
  rewrite (run_compact_intervals len 1) by lia.
  replace (c + Z.of_nat 0) with c by lia.
  destruct (_interval_to_string c (c + Z.of_nat len)); reflexivity.
Qed.
End RowRuns.

(** X17: when the row ids are the numbers from [first] to [last] without a
    gap, in any order, the row summary is the single interval that
    [_interval_to_string] writes for them: "first" alone for one row,
    "first-last" otherwise. *)
Theorem compact_rows_string_of_run (first last : Z) (row_ids : list Z) :
  first <= last ->
  Permutation (row_run first last) row_ids ->
  _get_compact_rows_string row_ids = _interval_to_string first last
  /\ _get_compact_rows_string row_ids
     = Ok (if first =? last then py_str first
           else (py_str first ++ "-" ++ py_str last)%string).
Proof.
  intros Hle Hperm.
  assert (Hrun : _get_compact_rows_string row_ids
                 = _interval_to_string first last).
  { unfold _get_compact_rows_string.
    rewrite <- (all_distinct_permutation _ _ Hperm).
    rewrite <- (py_sorted_permutation _ _ Hperm).
    unfold row_run, py_range in *. rewrite map_map in *.
    replace (Z.to_nat (last - first + 1))
      with (S (Z.to_nat (last - first))) in * by lia.
    destruct (run_compact_rows_string first (Z.to_nat (last - first)))
      as [Hdistinct Hsummary].
    rewrite Hdistinct, Hsummary. cbn [negb].
    destruct row_ids as [|x more].
    - apply Permutation_sym, Permutation_nil in Hperm. discriminate.
    - f_equal. lia. }
  split; [exact Hrun|].
  rewrite Hrun. unfold _interval_to_string.
  replace (first <=? last) with true by (symmetry; apply Z.leb_le; lia).
  cbn [negb]. destruct (first =? last); reflexivity.
Qed.

Lemma compact_rows_string_of_run_witness :
  _get_compact_rows_string [4; 3; 5] = Ok "3-5"%string.
Proof.
  assert (Hle : 3 <= 5) by lia.
  exact (proj2 (compact_rows_string_of_run 3 5 [4; 3; 5] Hle
                  (perm_swap 4 3 [5]))).
Defined.

(** ** Repeated records *)

(** X18: a record inserted twice leaves the memory as the first insertion
    left it: a line repeated in the input changes nothing. *)
Theorem add_row_twice (flash_memory : FlashMemory) (array_id row_id : Z)
        (row_data : bytes) :
  exists once,
    _add_row_to_array flash_memory array_id row_id row_data = Ok once
    /\ _add_row_to_array once array_id row_id row_data = Ok once.
Proof.
  eexists. split; [apply add_row_ok|].
  rewrite add_row_ok, get_set_same, !set_set. reflexivity.
Qed.

(** ** What a decoded header holds *)



(** ** A memory that holds an empty array *)

Lemma get_app_present {V : Type} (d more : dict V) (k : Z) :
  In k (keys d) -> get k (d ++ more) = get k d.
Proof.
  unfold keys. induction d as [|[k' v'] rest IH]; simpl; [intros []|].
  destruct (Z.eqb_spec k' k); [reflexivity|].
  intros [Heq | Hin]; [congruence | now apply IH].
Qed.

Lemma get_app_absent {V : Type} (d more : dict V) (k : Z) :
  ~ In k (keys d) -> get k (d ++ more) = get k more.
Proof.
  unfold keys. induction d as [|[k' v'] rest IH]; simpl; [reflexivity|].
  intros Hnot. destruct (Z.eqb_spec k' k) as [Heq|]; [tauto|].
  apply IH. tauto.
Qed.

Lemma write_arrays_prefix (flash_memory : FlashMemory)
      (default_bit_value : string) (array_ids : list Z) :
  Forall (fun array_id =>
            exists rows, get array_id flash_memory = Some rows
                         /\ array_ready rows) array_ids ->
  forall later output_file,
    write_arrays flash_memory (array_ids ++ later) output_file
                 default_bit_value
    = write_arrays flash_memory later
        (output_file
           ++ concat (map (fun array_id =>
                             match get array_id flash_memory with
                             | Some rows => array_image default_bit_value rows
                             | None => []
                             end)
                          array_ids))
        default_bit_value.
Proof.
  induction 1 as [|array_id more (rows & Hget & Hready) _ IH];
    intros later output_file.
  - cbn [app map concat]. now rewrite app_nil_r.
  - cbn [app write_arrays map concat]. rewrite Hget.
    rewrite write_flash_array_is_array_image by exact Hready.
    rewrite IH. now rewrite app_assoc.
Qed.

(** X20: the output is not written atomically.  Handed a memory in which
    an empty array follows arrays that have rows, the writer raises the
    [ValueError] of the empty array and leaves a file that holds the
    images of the arrays before it.  When the empty array comes first, the
    summary raises [IndexError] and no file is opened. *)
Theorem empty_array_leaves_partial_file (before later : FlashMemory)
        (array_id : Z) (default_bit_value : string) :
  all_distinct (keys (before ++ (array_id, []) :: later)) = true ->
  Forall array_ready (values before) ->
  _write_flash_memory_to_files (before ++ (array_id, []) :: later)
                               default_bit_value
  = match before with
    | [] => (Raise IndexError, None)
    | _ =>
        (Raise ValueError,
         Some (concat (map (array_image default_bit_value) (values before))))
    end.
Proof.
  intros Hdistinct Hready.
  destruct before as [|[k0 rows0] others] eqn:Hbefore; [reflexivity|].
  rewrite <- Hbefore in *.
  set (flash_memory := before ++ (array_id, []) :: later) in *.
  apply all_distinct_NoDup in Hdistinct.
  unfold flash_memory, keys in Hdistinct. rewrite map_app in Hdistinct.
  cbn [map fst] in Hdistinct.
  pose proof (NoDup_remove_2 _ _ _ Hdistinct) as Hfresh.
  pose proof (NoDup_app_remove_r _ _ Hdistinct) as Hbefore_keys.
  apply all_distinct_NoDup in Hbefore_keys.
  assert (Hsummary : _print_flash_memory_summary flash_memory = Ok tt).
  { unfold flash_memory. rewrite Hbefore in *. cbn [app].
    unfold _print_flash_memory_summary.
    cbn [values map snd py_next_iter bind].
    inversion Hready as [|? ? [Hrows _] _]; subst.
    destruct rows0 as [|[row_id row] more]; [congruence|].
    pose proof (py_sorted_ascending (keys ((row_id, row) :: more))) as Hsorted.
    destruct (py_sorted (keys ((row_id, row) :: more))); [discriminate|].
    reflexivity. }
  unfold _write_flash_memory_to_files. rewrite Hsummary.
  assert (Hkeys : keys flash_memory
                  = keys before ++ array_id :: keys later)
    by (unfold flash_memory, keys; now rewrite map_app).
  rewrite Hkeys.
  rewrite write_arrays_prefix.
  - cbn [write_arrays app].
    assert (Hempty : get array_id flash_memory = Some []).
    { unfold flash_memory. rewrite get_app_absent.
      - cbn [get]. now rewrite Z.eqb_refl.
      - intros Hin. apply Hfresh. apply in_or_app. now left. }
    rewrite Hempty. cbn [_write_flash_array_to_file keys map py_max bind].
    do 3 f_equal.
    rewrite (map_ext_in _ (fun k => match get k before with
                                    | Some rows =>
                                        array_image default_bit_value rows
                                    | None => []
                                    end)).
    + rewrite <- (map_map (fun k => get k before)
                    (fun found => match found with
                                  | Some rows =>
                                      array_image default_bit_value rows
                                  | None => []
                                  end)).
      rewrite (get_keys_values before Hbefore_keys), map_map. reflexivity.
    + intros k Hin. unfold flash_memory. now rewrite get_app_present.
  - apply Forall_forall. intros k Hin.
    destruct (get_of_key before k Hin) as [rows Hrows].
    exists rows. split.
    + unfold flash_memory. now rewrite get_app_present.
    + rewrite Forall_forall in Hready.
      apply Hready. eapply get_in_values. exact Hrows.
Qed.

Lemma empty_array_leaves_partial_file_witness :
  _write_flash_memory_to_files [(0, [(0, [xaa])]); (1, []); (2, [(0, [xbb])])]
                               "0"
  = (Raise ValueError, Some [xaa]).
Proof.
  apply (empty_array_leaves_partial_file [(0, [(0, [xaa])])]
           [(2, [(0, [xbb])])] 1 "0").
  - reflexivity.
  - apply Forall_cons; [|apply Forall_nil].
    split; [discriminate | reflexivity].
Defined.

(** ** Lines that are not hexadecimal *)

Lemma pairs_ind (P : bytes -> Prop) :
  P [] -> (forall x, P [x]) -> (forall x y s, P s -> P (x :: y :: s)) ->
  forall s, P s.
Proof.
  intros Hnil Hone Hstep s.
  assert (Hboth : P s /\ forall x, P (x :: s)).
  { induction s as [|y more [IH1 IH2]]; split; auto. }
  apply Hboth.
Qed.

Lemma unhexlify_ok_iff (s : bytes) :
  is_ok (PyBytes.unhexlify s) = Nat.even (length s) && forallb is_hex s.
Proof.
  induction s as [| x | x y s IH] using pairs_ind.
  - reflexivity.
  - reflexivity.
  - cbn [PyBytes.unhexlify length Nat.even forallb]. unfold is_hex at 1 2.
    destruct (PyBytes.hex_digit x); cbn [andb];
      [|now rewrite andb_false_r].
    destruct (PyBytes.hex_digit y); cbn [andb];
      [|now rewrite andb_false_r].
    rewrite <- IH. now destruct (PyBytes.unhexlify s).
Qed.

(** X21: the record decoder raises [binascii.Error] exactly for a line
    with an odd number of characters or with a character that is not a
    hexadecimal digit, of either case. *)
Theorem parse_flash_row_binascii_error (ascii_line : bytes) :
  _parse_flash_row ascii_line = Raise BinasciiError
  <-> Nat.even (length ascii_line) && forallb is_hex ascii_line = false.
Proof.
  rewrite <- unhexlify_ok_iff.
  pose proof (parse_flash_row_cases ascii_line) as Hcases.
  destruct (PyBytes.unhexlify ascii_line) as [raw|e]; cbn [is_ok].
  - split; [|discriminate].
    rewrite Hcases.
    destruct raw as [|a [|r1 [|r0 [|l1 [|l0 rest]]]]]; try discriminate.
    cbv zeta.
    destruct (skipn _ rest); [discriminate|].
    destruct (_ =? _); discriminate.
  - split; [reflexivity | intros _; exact Hcases].
Qed.
